(** * A shallow embedding of the circuit breaker of [breaker.go]

    The breaker is a three-state machine (closed, open, half-open) guarded by a
    mutex.  Every method of the Go type takes the mutex for its whole body, so
    each method is one atomic step on the breaker; the wrapped operation of
    [Do] runs between two such steps, outside of the lock.

    Modelling choices, each one visible in the definitions below:
    - [time.Time] is an instant counted in nanoseconds, a [Z]; [t.Add d] is
      [t + d], [t.After u] is [u < t], and [!=] on two instants is
      disequality of the numbers.  Readings of [time.Now()] are arguments.
    - [int64] counters are [Z] with the two's complement wrap-around of [++]
      written out ([incr64]).
    - func values may be nil: [OnStateChange] and [shouldTrip] are options, and
      calling [None] panics as the Go runtime does.
    - [interface{}] values, which the breaker never inspects, are a small sum
      type ([Any]).
    - what a callback or a wrapped operation does to the rest of the program
      is a function on an abstract [World]; a panic is an explicit result.
    - the getters [State()] and [Counts()] only read a field under the lock;
      they are the projections [state] and [counts]. *)

From Stdlib Require Import ZArith List Ascii String Bool Lia.
From Stdlib Require Decimal DecimalString DecimalPos DecimalZ.
Import ListNotations.
Open Scope string_scope.
Open Scope list_scope.
Open Scope Z_scope.

(** ** Time and machine integers *)

Definition Time := Z.
Definition Duration := Z.

Definition Nanosecond : Duration := 1.
Definition Second : Duration := 1000000000 * Nanosecond.
Definition Minute : Duration := 60 * Second.

Definition Add (t : Time) (d : Duration) : Time := t + d.
Definition After (t u : Time) : bool := u <? t.

Definition int64_min : Z := - 2 ^ 63.
Definition int64_max : Z := 2 ^ 63 - 1.
Definition in_int64 (z : Z) : Prop := int64_min <= z <= int64_max.

Definition wrap64 (z : Z) : Z := (z + 2 ^ 63) mod 2 ^ 64 - 2 ^ 63.
Definition incr64 (z : Z) : Z := wrap64 (z + 1).

(** ** Package-level values *)

Inductive error : Type :=
| ErrIsOpen
| ErrHalfOpenButExceedRequestLimit
| HandlerError (msg : string).

Definition error_message (e : error) : string :=
  match e with
  | ErrIsOpen => "breaker is open"
  | ErrHalfOpenButExceedRequestLimit =>
      "breaker is half open, but current request exceed limit"
  | HandlerError msg => msg
  end.

Definition DefaultOpenStateExpiry : Duration := Minute.
Definition DefaultFailureThreshold : Z := 100.
Definition DefaultSuccessThreshold : Z := 100.
Definition DefaultGenerationInterval : Duration := 10 * Second.
Definition DefaultHalfOpenRequestLimit : Z := 200.

Inductive State : Type := Open | HalfOpen | Closed.

Definition State_string (s : State) : string :=
  match s with
  | Open => "open"
  | HalfOpen => "half-open"
  | Closed => "closed"
  end.

Record Event : Type := mkEvent {
  When : Time;
  From : State;
  To : State;
  Reason : string
}.

Definition ReasonManuallyReset : string := "manually reset".
Definition ReasonOpenStateExpired : string := "open state expired".
Definition ReasonReachThreshold : string := "reach threshold".
Definition ReasonFailedOnHalfOpenState : string := "failed on half-open state".

Record Counts : Type := mkCounts {
  Request : Z;
  Success : Z;
  Failure : Z
}.

(** [(c *Counts) reset()] *)
Definition reset (c : Counts) : Counts := mkCounts 0 0 0.

(** The verb [%d] of [fmt] on an [int64]: decimal digits, a minus sign before
    a negative number. *)
Definition itoa (z : Z) : string :=
  DecimalString.NilZero.string_of_int (Z.to_int z).

(** [(c Counts) String()] *)
Definition Counts_String (c : Counts) : string :=
  ("request: " ++ itoa (Request c) ++ ", success: " ++ itoa (Success c)
   ++ ", failure: " ++ itoa (Failure c))%string.

Fixpoint comma_free (s : string) : bool :=
  match s with
  | EmptyString => true
  | String a rest => negb (Ascii.eqb a ","%char) && comma_free rest
  end.

(** [interface{}]: the nil interface, or some value. *)
Inductive Any : Type :=
| Nil
| Int (z : Z)
| Str (s : string).

(** What a panic carries: the runtime error of a call through a nil func, or
    the value handed to [panic]. *)
Inductive PanicValue : Type :=
| NilFuncCall
| Raised (v : Any).

(** The result of a wrapped operation: it returns its pair, or it panics. *)
Inductive HandleOutcome : Type :=
| Returned (resp : Any) (err : option error)
| Panics (e : PanicValue).

Definition isNil (err : option error) : bool :=
  match err with None => true | Some _ => false end.

(** ** The breaker, over an abstract world *)

Section Breaker.

Variable World : Type.

Definition StateChangeNotificationFunc : Type := Event -> World -> World.
Definition ShouldTripFunc : Type := Counts -> bool.

Record Option : Type := mkOption {
  GenerationInterval : Duration;
  OpenStateExpiry : Duration;
  FailureThreshold : Z;
  SuccessThreshold : Z;
  HalfOpenRequestLimit : Z;
  OnStateChange : option StateChangeNotificationFunc;
  shouldTrip : option ShouldTripFunc
}.

Record CircuitBreaker : Type := mkCircuitBreaker {
  opt : Option;
  state : State;
  generation : Time;
  counts : Counts
}.

Definition set_opt (o : Option) (cb : CircuitBreaker) : CircuitBreaker :=
  mkCircuitBreaker o (state cb) (generation cb) (counts cb).
Definition set_state (s : State) (cb : CircuitBreaker) : CircuitBreaker :=
  mkCircuitBreaker (opt cb) s (generation cb) (counts cb).
Definition set_generation (g : Time) (cb : CircuitBreaker) : CircuitBreaker :=
  mkCircuitBreaker (opt cb) (state cb) g (counts cb).
Definition set_counts (c : Counts) (cb : CircuitBreaker) : CircuitBreaker :=
  mkCircuitBreaker (opt cb) (state cb) (generation cb) c.

(** A wrapped operation runs without the lock: besides acting on the world it
    may find the breaker changed under it (by other goroutines, or by its own
    calls), which is the breaker it hands back. *)
Definition HandleFunc : Type :=
  CircuitBreaker -> World -> HandleOutcome * CircuitBreaker * World.

(** ** A small monad: breaker and world threaded, panics propagated *)

Inductive Result (A : Type) : Type :=
| Done (a : A) (cb : CircuitBreaker) (w : World)
| Panicked (p : PanicValue) (cb : CircuitBreaker) (w : World).

Arguments Done {A} a cb w.
Arguments Panicked {A} p cb w.

Definition M (A : Type) : Type := CircuitBreaker -> World -> Result A.

Definition ret {A : Type} (a : A) : M A := fun cb w => Done a cb w.

Definition bind {A B : Type} (m : M A) (k : A -> M B) : M B :=
  fun cb w =>
    match m cb w with
    | Done a cb' w' => k a cb' w'
    | Panicked p cb' w' => Panicked p cb' w'
    end.

Definition panic {A : Type} (p : PanicValue) : M A :=
  fun cb w => Panicked p cb w.

Definition get : M CircuitBreaker := fun cb w => Done cb cb w.
Definition modify (f : CircuitBreaker -> CircuitBreaker) : M unit :=
  fun cb w => Done tt (f cb) w.
Definition act (f : World -> World) : M unit :=
  fun cb w => Done tt cb (f w).

Notation "x <- m ;; k" := (bind m (fun x => k))
  (at level 61, m at next level, right associativity).
Notation "m ;;; k" := (bind m (fun _ => k))
  (at level 61, right associativity).

Definition breaker_of {A : Type} (r : Result A) : CircuitBreaker :=
  match r with Done _ cb _ => cb | Panicked _ cb _ => cb end.
Definition world_of {A : Type} (r : Result A) : World :=
  match r with Done _ _ w => w | Panicked _ _ w => w end.

(** ** Methods of the breaker *)

(** [resetCounts] *)
Definition resetCounts (cb : CircuitBreaker) : CircuitBreaker :=
  set_counts (reset (counts cb)) cb.

(** [moveToNextGeneration] *)
Definition moveToNextGeneration (now : Time) (cb : CircuitBreaker)
  : CircuitBreaker :=
  let cb := resetCounts cb in
  match state cb with
  | Open => set_generation (Add now (OpenStateExpiry (opt cb))) cb
  | HalfOpen | Closed =>
      set_generation (Add now (GenerationInterval (opt cb))) cb
  end.

(** [changeState]: the fields are written first, the sink is called last. *)
Definition changeState (now : Time) (newState : State) (reason : string)
  : M unit :=
  cb <- get ;;
  let current := state cb in
  modify (set_state newState) ;;;
  modify (moveToNextGeneration now) ;;;
  match OnStateChange (opt cb) with
  | None => panic NilFuncCall
  | Some notify => act (notify (mkEvent now current newState reason))
  end.

(** The trip function [New] installs. *)
Definition defaultTrip (failureThreshold : Z) : ShouldTripFunc :=
  fun c => failureThreshold <=? Failure c.

Definition orDefault (v d : Z) : Z := if v =? 0 then d else v.

(** [New]: either it panics, or it returns the breaker it built at [now]. *)
Definition New (o : Option) (now : Time) : PanicValue + CircuitBreaker :=
  let openStateExpiry := orDefault (OpenStateExpiry o) DefaultOpenStateExpiry in
  let failureThreshold :=
    orDefault (FailureThreshold o) DefaultFailureThreshold in
  let successThreshold :=
    orDefault (SuccessThreshold o) DefaultSuccessThreshold in
  let generationInterval :=
    orDefault (GenerationInterval o) DefaultGenerationInterval in
  let halfOpenRequestLimit :=
    orDefault (HalfOpenRequestLimit o) DefaultHalfOpenRequestLimit in
  if halfOpenRequestLimit <? successThreshold then
    inl (Raised
           (Str
              "half-open request limit should greater than success threshold"))
  else
    let o' := mkOption generationInterval openStateExpiry failureThreshold
                successThreshold halfOpenRequestLimit (OnStateChange o)
                (Some (defaultTrip failureThreshold)) in
    inr (moveToNextGeneration now
           (mkCircuitBreaker o' Closed now (mkCounts 0 0 0))).

(** [Reset] *)
Definition Reset (now : Time) : M unit :=
  changeState now Closed ReasonManuallyReset.

(** [postStartHook]: the admission phase.  It returns the generation token
    and the rejection error, nil ([None]) when the call is admitted. *)
Definition postStartHook (now : Time) : M (Time * option error) :=
  cb <- get ;;
  let tempState := state cb in
  match tempState with
  | Open =>
      if After now (generation cb)
      then changeState now HalfOpen ReasonOpenStateExpired
      else ret tt
  | HalfOpen =>
      if SuccessThreshold (opt cb) <=? Success (counts cb)
      then changeState now Closed ReasonReachThreshold
      else ret tt
  | Closed =>
      match shouldTrip (opt cb) with
      | None => panic NilFuncCall
      | Some trip =>
          if trip (counts cb)
          then changeState now Open ReasonReachThreshold
          else ret tt
      end
  end ;;;
  cb <- get ;;
  (if After now (generation cb)
   then modify (moveToNextGeneration now)
   else ret tt) ;;;
  cb <- get ;;
  match state cb with
  | Open => ret (generation cb, Some ErrIsOpen)
  | st =>
      if match st with
         | HalfOpen => HalfOpenRequestLimit (opt cb) <? Request (counts cb)
         | _ => false
         end
      then ret (generation cb, Some ErrHalfOpenButExceedRequestLimit)
      else
        modify (fun cb =>
                  set_counts (mkCounts (incr64 (Request (counts cb)))
                                (Success (counts cb)) (Failure (counts cb)))
                    cb) ;;;
        ret (generation cb, None)
  end.

(** [preStopHook]: the completion phase; [now] is read only on the path that
    reopens a half-open breaker. *)
Definition preStopHook (currentGeneration : Time) (handleSuccess : bool)
    (now : Time) : M unit :=
  cb <- get ;;
  if negb (currentGeneration =? generation cb) then ret tt
  else
    modify (fun cb =>
              let c := counts cb in
              if negb handleSuccess
              then set_counts
                     (mkCounts (Request c) (Success c) (incr64 (Failure c))) cb
              else set_counts
                     (mkCounts (Request c) (incr64 (Success c)) (Failure c)) cb)
    ;;;
    cb <- get ;;
    let currentState := state cb in
    match currentState with
    | HalfOpen =>
        if negb handleSuccess
        then changeState now Open ReasonFailedOnHalfOpenState
        else ret tt
    | _ => ret tt
    end.

(** The deferred function of [Do], run when the body panicked with [e] (a
    panic carries a value, so [recover] finds it): the call is recorded as
    failed and [e] is raised again.  A panic of the recording itself takes the
    place of [e]. *)
Definition recoverAndRecord (g : Time) (e : PanicValue) (now : Time)
    {A : Type} : M A :=
  preStopHook g false now ;;;
  panic e.

(** [Do].  [now] is the clock at admission, [fin] at completion, [fin'] in the
    deferred function. *)
Definition Do (handle : HandleFunc) (now fin fin' : Time)
  : M (Any * option error) :=
  fun cb w =>
    match postStartHook now cb w with
    | Panicked p cb w => Panicked p cb w
    | Done (gen, Some err) cb w => Done (Nil, Some err) cb w
    | Done (gen, None) cb w =>
        match handle cb w with
        | (Panics e, cb, w) => recoverAndRecord gen e fin' cb w
        | (Returned resp err, cb, w) =>
            match
              preStopHook gen (isNil err) fin cb w
            with
            | Done _ cb w => Done (resp, err) cb w
            | Panicked e cb w => recoverAndRecord gen e fin' cb w
            end
        end
    end.

(** ** Callers *)

(** A wrapped operation that only returns its pair: it touches neither the
    breaker nor the world. *)
Definition returning (resp : Any) (err : option error)
  : HandleFunc :=
  fun cb w => (Returned resp err, cb, w).

(** One call of [Do] by a sequential caller, with the clock readings it
    meets. *)
Record Call : Type := mkCall {
  handle_of : HandleFunc;
  admitted_at : Time;
  completed_at : Time;
  deferred_at : Time
}.

(** A caller's loop, as [do] of [example/response.go]: the calls one after the
    other on the same breaker, every result kept. *)
Fixpoint DoAll (calls : list Call)
  : M (list (Any * option error)) :=
  match calls with
  | [] => ret []
  | c :: rest =>
      r <- Do (handle_of c) (admitted_at c) (completed_at c) (deferred_at c) ;;
      rs <- DoAll rest ;;
      ret (r :: rs)
  end.

(** A call that fails by returning the error [e] beside [resp]. *)
Definition failing (c : Time * Any * error) : Call :=
  let '(t, resp, e) := c in mkCall (returning resp (Some e)) t t t.

Definition failure_of (c : Time * Any * error)
  : Any * option error :=
  let '(_, resp, e) := c in (resp, Some e).

Definition rejected_open (c : Call) : Any * option error :=
  (Nil, Some ErrIsOpen).

(** A call that succeeds, returning [resp] and a nil error. *)
Definition succeeding (c : Time * Any) : Call :=
  let '(t, resp) := c in mkCall (returning resp None) t t t.

Definition success_of (c : Time * Any) : Any * option error :=
  let '(_, resp) := c in (resp, None).

(** Clock readings each later than the expiry of the window the reading
    before it started: the first is past [g], the next past the first plus
    [d], and so on. *)
Fixpoint spaced (g : Time) (d : Duration) (ts : list Time) : Prop :=
  match ts with
  | [] => True
  | t :: rest => g < t /\ spaced (Add t d) d rest
  end.

(** ** Concurrent callers *)

(** The steps other goroutines can interleave: an admission, the completion of
    a call admitted earlier (it carries the token it captured), a manual
    reset.  Each reads the clock it is given. *)
Inductive Op : Type :=
| Admit (now : Time)
| Complete (g : Time) (handleSuccess : bool) (now : Time)
| ManualReset (now : Time).

(** The breaker, the world, and the tokens of the calls in flight. *)
Record System : Type := mkSystem {
  breaker : CircuitBreaker;
  world : World;
  inflight : list Time
}.

Fixpoint take_token (g : Time) (l : list Time) : option (list Time) :=
  match l with
  | [] => None
  | h :: t =>
      if h =? g then Some t
      else match take_token g t with
           | Some t' => Some (h :: t')
           | None => None
           end
  end.

(** One step; [None] when a completion names a token no call in flight holds.
    A panicking step leaves the breaker as the panic found it. *)
Definition step (op : Op) (s : System) : option System :=
  match op with
  | Admit now =>
      let r := postStartHook now (breaker s) (world s) in
      Some (mkSystem (breaker_of r) (world_of r)
              match r with
              | Done (g, None) _ _ => g :: inflight s
              | _ => inflight s
              end)
  | Complete g ok now =>
      match take_token g (inflight s) with
      | None => None
      | Some rest =>
          let r := preStopHook g ok now (breaker s) (world s) in
          Some (mkSystem (breaker_of r) (world_of r) rest)
      end
  | ManualReset now =>
      let r := Reset now (breaker s) (world s) in
      Some (mkSystem (breaker_of r) (world_of r) (inflight s))
  end.

Fixpoint run (ops : list Op) (s : System) : option System :=
  match ops with
  | [] => Some s
  | op :: rest =>
      match step op s with
      | Some s' => run rest s'
      | None => None
      end
  end.

(** A wrapped operation that leaves the breaker alone while it runs: no
    other goroutine and no call of its own touches it. *)
Definition quiet (handle : HandleFunc) : Prop :=
  forall cb w, snd (fst (handle cb w)) = cb.

(** Every counted request has been counted as a success or as a failure. *)
Definition balanced (cb : CircuitBreaker) : Prop :=
  0 <= Success (counts cb) /\ 0 <= Failure (counts cb)
  /\ Success (counts cb) + Failure (counts cb) = Request (counts cb).

(** ** The breakers the methods leave behind *)

(** The breaker a transition to [s] at [now] leaves behind. *)
Definition moved (now : Time) (s : State) (cb : CircuitBreaker)
  : CircuitBreaker :=
  mkCircuitBreaker (opt cb) s
    (match s with
     | Open => Add now (OpenStateExpiry (opt cb))
     | _ => Add now (GenerationInterval (opt cb))
     end)
    (mkCounts 0 0 0).

(** The breaker after an admitted request has been counted. *)
Definition counted (cb : CircuitBreaker) : CircuitBreaker :=
  set_counts (mkCounts (incr64 (Request (counts cb))) (Success (counts cb))
                (Failure (counts cb))) cb.

(** The breaker after a matching outcome has been counted. *)
Definition recorded (ok : bool) (cb : CircuitBreaker) : CircuitBreaker :=
  let c := counts cb in
  if negb ok
  then set_counts (mkCounts (Request c) (Success c) (incr64 (Failure c))) cb
  else set_counts (mkCounts (Request c) (incr64 (Success c)) (Failure c)) cb.

End Breaker.

Arguments mkOption {World}.
Arguments GenerationInterval {World}.
Arguments OpenStateExpiry {World}.
Arguments FailureThreshold {World}.
Arguments SuccessThreshold {World}.
Arguments HalfOpenRequestLimit {World}.
Arguments OnStateChange {World}.
Arguments shouldTrip {World}.
Arguments mkCircuitBreaker {World}.
Arguments opt {World}.
Arguments state {World}.
Arguments generation {World}.
Arguments counts {World}.
Arguments set_opt {World}.
Arguments set_state {World}.
Arguments set_generation {World}.
Arguments set_counts {World}.
Arguments Done {World A}.
Arguments Panicked {World A}.
Arguments ret {World A}.
Arguments bind {World A B}.
Arguments panic {World A}.
Arguments get {World}.
Arguments modify {World}.
Arguments act {World}.
Arguments breaker_of {World A}.
Arguments world_of {World A}.
Arguments resetCounts {World}.
Arguments moveToNextGeneration {World}.
Arguments changeState {World}.
Arguments New {World}.
Arguments Reset {World}.
Arguments postStartHook {World}.
Arguments preStopHook {World}.
Arguments recoverAndRecord {World} g e now {A}.
Arguments Do {World}.
Arguments returning {World}.
Arguments mkCall {World}.
Arguments handle_of {World}.
Arguments admitted_at {World}.
Arguments completed_at {World}.
Arguments deferred_at {World}.
Arguments DoAll {World}.
Arguments failing {World}.
Arguments rejected_open {World}.
Arguments succeeding {World}.
Arguments mkSystem {World}.
Arguments breaker {World}.
Arguments world {World}.
Arguments inflight {World}.
Arguments step {World}.
Arguments run {World}.
Arguments quiet {World}.
Arguments balanced {World}.
Arguments moved {World}.
Arguments counted {World}.
Arguments recorded {World}.


(** ** A concrete world: the log of the events the sink received *)

Definition Log : Type := list Event.

(** A sink that appends the event to the log, as [onChange] of
    [example/response.go] prints it. *)
Definition onChange : StateChangeNotificationFunc Log :=
  fun ev log => log ++ [ev].

(** The configuration of [example/response.go]. *)
Definition exampleOption : Option Log :=
  mkOption (2 * Second) (2 * Second) 3 5 10 (Some onChange) None.

Definition exampleBreaker : CircuitBreaker Log :=
  mkCircuitBreaker
    (mkOption (2 * Second) (2 * Second) 3 5 10 (Some onChange)
       (Some (defaultTrip 3)))
    Closed (2 * Second) (mkCounts 0 0 0).

(** The error the example's failing operation returns at its [i]-th call (the
    call number is left out of the message). *)
Definition manualError (i : Z) : error :=
  HandlerError "manual error times".

Definition threeFailures : list (Time * Any * error) :=
  [(1, Nil, manualError 1); (2, Nil, manualError 2);
   (3, Nil, manualError 3)].

(** The same breaker once open, half-open, and without a sink. *)
Definition openBreaker : CircuitBreaker Log :=
  mkCircuitBreaker (opt exampleBreaker) Open (4 + 2 * Second) (mkCounts 0 0 0).

Definition halfOpenBreaker (c : Counts) : CircuitBreaker Log :=
  mkCircuitBreaker (opt exampleBreaker) HalfOpen (5 + 4 * Second) c.

Definition nilOption : Option Log :=
  mkOption (2 * Second) (2 * Second) 3 5 10 None None.

Definition nilBreaker : CircuitBreaker Log :=
  mkCircuitBreaker
    (mkOption (2 * Second) (2 * Second) 3 5 10 None (Some (defaultTrip 3)))
    Closed (2 * Second) (mkCounts 0 0 0).

(** A caller that recovers from the breaker's panics brings the breaker
    without a sink to half-open: three failures, the admission that trips, the
    admission past the open expiry. *)
Definition toHalfOpen : list Op :=
  [Admit 1; Complete (2 * Second) false 1;
   Admit 2; Complete (2 * Second) false 2;
   Admit 3; Complete (2 * Second) false 3;
   Admit 4; Admit (5 + 2 * Second)].

Definition nilHalfOpen : CircuitBreaker Log :=
  mkCircuitBreaker (opt nilBreaker) HalfOpen (5 + 4 * Second) (mkCounts 0 0 0).

(** ** Executions of concurrent callers *)

(** The example's breaker is brought to half-open (three failures, the
    admission that trips, the admission past the open expiry, which is the
    first probe) and nine more probes are admitted while none completes. *)
Definition tenProbes : list Op :=
  [Admit 1; Complete (2 * Second) false 1;
   Admit 2; Complete (2 * Second) false 2;
   Admit 3; Complete (2 * Second) false 3;
   Admit 4;
   Admit (5 + 2 * Second); Admit (6 + 2 * Second); Admit (7 + 2 * Second);
   Admit (8 + 2 * Second); Admit (9 + 2 * Second); Admit (10 + 2 * Second);
   Admit (11 + 2 * Second); Admit (12 + 2 * Second); Admit (13 + 2 * Second);
   Admit (14 + 2 * Second)].

(** A breaker whose counting window is longer than its open expiry. *)
Definition longWindowOption : Option Log :=
  mkOption (10 * Second) (1 * Second) 1 1 1 (Some onChange) None.

Definition longWindowBreaker : CircuitBreaker Log :=
  mkCircuitBreaker
    (mkOption (10 * Second) (1 * Second) 1 1 1 (Some onChange)
       (Some (defaultTrip 1)))
    Closed (10 * Second) (mkCounts 0 0 0).

(** Two calls are admitted in the closed generation that expires at 10s; the
    second fails; at 9s the next admission trips the breaker, and the open
    generation expires at 9s + 1s, the same instant; then the first call, still
    holding the token of the closed generation, succeeds. *)
Definition slowCall : list Op :=
  [Admit 0; Admit 1; Complete (10 * Second) false 2;
   Admit (9 * Second); Complete (10 * Second) true (9 * Second + 1)].

(** The ten probes and an eleventh. *)
Definition elevenProbes : list Op := tenProbes ++ [Admit (15 + 2 * Second)].

(** A healthy operation called five times, the window expiring in between. *)
Definition fiveSuccesses : list (Time * Any) :=
  [(1, Int 1); (2, Int 2); (3 + 2 * Second, Int 3); (4 + 2 * Second, Int 4);
   (5 + 4 * Second, Int 5)].

(** Three failures, each after the window of the one before has expired. *)
Definition slowFailures : list (Time * Any * error) :=
  [(1 + 2 * Second, Nil, manualError 1);
   (2 + 4 * Second, Nil, manualError 2);
   (3 + 6 * Second, Nil, manualError 3)].

(** The probes of a recovery: the last four of the five successes the
    threshold asks for. *)
Definition fourProbes : list (Time * Any) :=
  [(6 + 2 * Second, Int 2); (7 + 2 * Second, Int 3); (8 + 2 * Second, Int 4);
   (5 + 4 * Second, Int 5)].

(** ** Transitions and histories *)

(** The moves of the state machine an admission can make. *)
Definition admission_transition (a b : State) : Prop :=
  (a = Closed /\ b = Open) \/ (a = Open /\ b = HalfOpen)
  \/ (a = HalfOpen /\ b = Closed).

(** The clock reading a step uses. *)
Definition time_of (op : Op) : Time :=
  match op with
  | Admit now => now
  | Complete _ _ now => now
  | ManualReset now => now
  end.

(** The moves of the state machine a step can make: those of an admission,
    the reopening of a half-open breaker by a completion, the closing by a
    manual reset. *)
Definition step_transition (op : Op) (a b : State) : Prop :=
  match op with
  | Admit _ => admission_transition a b
  | Complete _ _ _ => a = HalfOpen /\ b = Open
  | ManualReset _ => b = Closed
  end.

(** The reason a step gives for the move it makes out of state [a]. *)
Definition reason_of (op : Op) (a : State) : string :=
  match op with
  | Admit _ =>
      match a with
      | Open => ReasonOpenStateExpired
      | _ => ReasonReachThreshold
      end
  | Complete _ _ _ => ReasonFailedOnHalfOpenState
  | ManualReset _ => ReasonManuallyReset
  end.

(** A step that cannot take an open breaker out of its open generation
    expiring at [g]: an admission not after [g], or a completion. *)
Definition before_expiry (g : Time) (op : Op) : Prop :=
  match op with
  | Admit now => now <= g
  | Complete _ _ _ => True
  | ManualReset _ => False
  end.

(** All three counts lie between 0 and [k]. *)
Definition within (k : Z) (c : Counts) : Prop :=
  (0 <= Request c <= k) /\ (0 <= Success c <= k) /\ (0 <= Failure c <= k).

(** A log is a history from [s0] to [s]: its first event leaves [s0], every
    event leaves the state the one before it entered, the last one enters
    [s]. *)
Fixpoint history (s0 : State) (log : list Event) (s : State) : Prop :=
  match log with
  | [] => s0 = s
  | ev :: rest => From ev = s0 /\ history (To ev) rest s
  end.

(** * The demonstration program ([example/response.go])

    The program's standard output is the list of the strings written to it,
    one per [fmt.Printf] or [fmt.Println] call, oldest first.  Two things the
    program takes from its environment are parameters: [timeString], what
    [%s] prints for a [time.Time], and [clock], the readings [time.Now] gives
    inside the [k]-th call of [Do] the program makes (at admission, at
    completion, in the deferred function).  [time.Sleep] writes nothing: it
    only shows in the clock. *)
Module Example.
Section Program.

Variable timeString : Time -> string.
Variable clock : nat -> Time * Time * Time.

Definition Stdout : Type := list string.

Definition write (text : string) : Stdout -> Stdout :=
  fun out => out ++ [text].

Definition newline : string := String (ascii_of_nat 10) EmptyString.

Definition onChange : StateChangeNotificationFunc Stdout :=
  fun ev =>
    write ("[" ++ timeString (When ev) ++ "] State change from "
           ++ State_string (From ev) ++ " to " ++ State_string (To ev)
           ++ " due to '" ++ Reason ev ++ "'" ++ newline)%string.

(** [opt] of [init]; its [shouldTrip] cannot be set from another package. *)
Definition option_ : Option Stdout :=
  mkOption (2 * Second) (2 * Second) 3 5 10 (Some onChange) None.

Definition init (now : Time) : PanicValue + CircuitBreaker Stdout :=
  New option_ now.

(** The closure [do] passes to [Do] at its [i]-th iteration. *)
Definition handler (success : bool) (i : Z) : HandleFunc Stdout :=
  if success then returning Nil None
  else returning Nil
         (Some (HandlerError ("manual error times: " ++ itoa i)%string)).

Notation "x <- m ;; k" := (bind m (fun x => k))
  (at level 61, m at next level, right associativity).
Notation "m ;;; k" := (bind m (fun _ => k))
  (at level 61, right associativity).

(** The loop of [do] from iteration [i] on, [times] iterations left, after
    [made] calls of [Do] by the program. *)
Fixpoint doFrom (success : bool) (i : Z) (times : nat) (made : nat)
  : M Stdout unit :=
  match times with
  | O => ret tt
  | S rest =>
      r <- Do (handler success i) (fst (fst (clock made)))
             (snd (fst (clock made))) (snd (clock made)) ;;
      cb <- get ;;
      act (write ("[" ++ itoa i ++ "] " ++ Counts_String (counts cb) ++ ", "
                  ++ State_string (state cb))%string) ;;;
      match snd r with
      | Some err => act (write (", error: " ++ error_message err)%string)
      | None => ret tt
      end ;;;
      act (write newline) ;;;
      doFrom success (i + 1) rest (S made)
  end.

Definition do (success : bool) (times : nat) (made : nat) : M Stdout unit :=
  doFrom success 1 times made.

Definition main : M Stdout unit :=
  do false 10 0 ;;;
  act (write ("Sleep 2s" ++ newline)%string) ;;;
  do true 2 10 ;;;
  do false 1 12 ;;;
  do true 2 13 ;;;
  act (write ("Sleep 2s" ++ newline)%string) ;;;
  do true 6 15.

(** The clock at the admission and at the completion of the program's [k]-th
    call of [Do], counted from 0. *)
Definition admitted (k : nat) : Time := fst (fst (clock k)).
Definition completed (k : nat) : Time := snd (fst (clock k)).

(** A run on schedule, [init] having read the clock at [t0]: the three
    failures come within the first window; the other calls of the first loop
    before the open state expires; the first sleep ends after that expiry;
    the two probes and the failing probe come within the half-open window,
    the two calls after the failing probe before the open state it started
    expires; the second sleep ends after that expiry, and the next four
    probes come within the half-open window. *)
Definition schedule (t0 : Time) : Prop :=
  admitted 0 <= t0 + 2 * Second /\ admitted 1 <= t0 + 2 * Second
  /\ admitted 2 <= t0 + 2 * Second
  /\ admitted 4 <= admitted 3 + 2 * Second
  /\ admitted 5 <= admitted 3 + 2 * Second
  /\ admitted 6 <= admitted 3 + 2 * Second
  /\ admitted 7 <= admitted 3 + 2 * Second
  /\ admitted 8 <= admitted 3 + 2 * Second
  /\ admitted 9 <= admitted 3 + 2 * Second
  /\ admitted 3 + 2 * Second < admitted 10
  /\ admitted 11 <= admitted 10 + 2 * Second
  /\ admitted 12 <= admitted 10 + 2 * Second
  /\ admitted 13 <= completed 12 + 2 * Second
  /\ admitted 14 <= completed 12 + 2 * Second
  /\ completed 12 + 2 * Second < admitted 15
  /\ admitted 16 <= admitted 15 + 2 * Second
  /\ admitted 17 <= admitted 15 + 2 * Second
  /\ admitted 18 <= admitted 15 + 2 * Second
  /\ admitted 19 <= admitted 15 + 2 * Second.

(** The line [onChange] prints. *)
Definition stateChange (t : Time) (a b : State) (reason : string) : string :=
  ("[" ++ timeString t ++ "] State change from "
   ++ State_string a ++ " to " ++ State_string b
   ++ " due to '" ++ reason ++ "'" ++ newline)%string.

(** The program's breaker in state [st], its generation expiring at [g], with
    counts [r], [s], [f]. *)
Definition breakerAt (st : State) (g : Time) (r s f : Z)
  : CircuitBreaker Stdout :=
  mkCircuitBreaker
    (mkOption (2 * Second) (2 * Second) 3 5 10 (Some onChange)
       (Some (defaultTrip 3)))
    st g (mkCounts r s f).

Definition manualErrorTimes (i : Z) : error :=
  HandlerError ("manual error times: " ++ itoa i)%string.

(** What one iteration of [do] writes once [Do] has returned [r] and left the
    breaker as [cb]. *)
Definition printed (i : Z) (cb : CircuitBreaker Stdout)
    (r : Any * option error) (out : Stdout) : Stdout :=
  write newline
    (match snd r with
     | Some err => write (", error: " ++ error_message err)%string
     | None => fun o => o
     end
       (write ("[" ++ itoa i ++ "] " ++ Counts_String (counts cb) ++ ", "
               ++ State_string (state cb))%string out)).

(** The output of a run on schedule. *)
Definition transcript : Stdout :=
  [ "[1] request: 1, success: 0, failure: 1, closed";
    ", error: manual error times: 1"; newline;
    "[2] request: 2, success: 0, failure: 2, closed";
    ", error: manual error times: 2"; newline;
    "[3] request: 3, success: 0, failure: 3, closed";
    ", error: manual error times: 3"; newline;
    stateChange (admitted 3) Closed Open "reach threshold";
    "[4] request: 0, success: 0, failure: 0, open";
    ", error: breaker is open"; newline;
    "[5] request: 0, success: 0, failure: 0, open";
    ", error: breaker is open"; newline;
    "[6] request: 0, success: 0, failure: 0, open";
    ", error: breaker is open"; newline;
    "[7] request: 0, success: 0, failure: 0, open";
    ", error: breaker is open"; newline;
    "[8] request: 0, success: 0, failure: 0, open";
    ", error: breaker is open"; newline;
    "[9] request: 0, success: 0, failure: 0, open";
    ", error: breaker is open"; newline;
    "[10] request: 0, success: 0, failure: 0, open";
    ", error: breaker is open"; newline;
    ("Sleep 2s" ++ newline)%string;
    stateChange (admitted 10) Open HalfOpen "open state expired";
    "[1] request: 1, success: 1, failure: 0, half-open"; newline;
    "[2] request: 2, success: 2, failure: 0, half-open"; newline;
    stateChange (completed 12) HalfOpen Open "failed on half-open state";
    "[1] request: 0, success: 0, failure: 0, open";
    ", error: manual error times: 1"; newline;
    "[1] request: 0, success: 0, failure: 0, open";
    ", error: breaker is open"; newline;
    "[2] request: 0, success: 0, failure: 0, open";
    ", error: breaker is open"; newline;
    ("Sleep 2s" ++ newline)%string;
    stateChange (admitted 15) Open HalfOpen "open state expired";
    "[1] request: 1, success: 1, failure: 0, half-open"; newline;
    "[2] request: 2, success: 2, failure: 0, half-open"; newline;
    "[3] request: 3, success: 3, failure: 0, half-open"; newline;
    "[4] request: 4, success: 4, failure: 0, half-open"; newline;
    "[5] request: 5, success: 5, failure: 0, half-open"; newline;
    stateChange (admitted 20) HalfOpen Closed "reach threshold";
    "[6] request: 1, success: 1, failure: 0, closed"; newline ].

End Program.
End Example.

(** A clock for the example: the calls a microsecond apart, each taking a
    nanosecond, and three seconds of sleep before the calls 10 and 15. *)
Definition exampleClock (k : nat) : Time * Time * Time :=
  let t := Z.of_nat k * 1000
           + (if (k <? 10)%nat then 0
              else if (k <? 15)%nat then 3 * Second else 6 * Second) in
  (t, t + 1, t + 2).

Section Properties.

Variable World : Type.

(** ** Basic facts about the methods *)

Ltac run_monad :=
  unfold Reset, changeState, recoverAndRecord, bind, get, modify, act, ret,
    panic in *; simpl in *.

Lemma wrap64_id (z : Z) : in_int64 z -> wrap64 z = z.
Proof.
  unfold in_int64, int64_min, int64_max, wrap64. intros H.
  rewrite Z.mod_small; lia.
Qed.

Lemma incr64_succ (z : Z) : int64_min <= z < int64_max -> incr64 z = z + 1.
Proof.
  unfold incr64, int64_min, int64_max. intros H.
  apply wrap64_id. unfold in_int64, int64_min, int64_max. lia.
Qed.

Lemma moveToNextGeneration_state (now : Time) (cb : CircuitBreaker World) :
  state (moveToNextGeneration now cb) = state cb.
Proof. destruct cb as [o [] g c]; reflexivity. Qed.

Lemma moveToNextGeneration_opt (now : Time) (cb : CircuitBreaker World) :
  opt (moveToNextGeneration now cb) = opt cb.
Proof. destruct cb as [o [] g c]; reflexivity. Qed.

Lemma moveToNextGeneration_counts (now : Time) (cb : CircuitBreaker World) :
  counts (moveToNextGeneration now cb) = mkCounts 0 0 0.
Proof. destruct cb as [o [] g c]; reflexivity. Qed.

Lemma moveToNextGeneration_twice (now : Time) (cb : CircuitBreaker World) :
  moveToNextGeneration now (moveToNextGeneration now cb)
  = moveToNextGeneration now cb.
Proof. destruct cb as [o [] g c]; reflexivity. Qed.

Lemma moved_eq (now : Time) (s : State) (cb : CircuitBreaker World) :
  moveToNextGeneration now (set_state s cb) = moved now s cb.
Proof. unfold moveToNextGeneration, moved. destruct s; reflexivity. Qed.

Lemma moveToNextGeneration_moved (now : Time) (s : State)
    (cb : CircuitBreaker World) :
  moveToNextGeneration now (moved now s cb) = moved now s cb.
Proof. rewrite <- moved_eq. apply moveToNextGeneration_twice. Qed.

Lemma changeState_notifies (now : Time) (s : State) (reason : string)
    (cb : CircuitBreaker World) (w : World)
    (notify : StateChangeNotificationFunc World) :
  OnStateChange (opt cb) = Some notify ->
  changeState now s reason cb w
  = Done tt (moved now s cb) (notify (mkEvent now (state cb) s reason) w).
Proof.
  intros H. run_monad. rewrite H. simpl. rewrite moved_eq. reflexivity.
Qed.

Lemma changeState_nil (now : Time) (s : State) (reason : string)
    (cb : CircuitBreaker World) (w : World) :
  OnStateChange (opt cb) = None ->
  changeState now s reason cb w = Panicked NilFuncCall (moved now s cb) w.
Proof.
  intros H. run_monad. rewrite H. simpl. rewrite moved_eq. reflexivity.
Qed.

(** ** The admission phase, state by state *)

Lemma postStartHook_open_waiting (now : Time) (cb : CircuitBreaker World)
    (w : World) :
  state cb = Open -> now <= generation cb ->
  postStartHook now cb w = Done (generation cb, Some ErrIsOpen) cb w.
Proof.
  intros Hs Hn. unfold postStartHook, After. run_monad. rewrite Hs.
  assert (E : (generation cb <? now) = false) by (apply Z.ltb_ge; lia).
  rewrite E. simpl. rewrite E. simpl. rewrite Hs. reflexivity.
Qed.

Lemma postStartHook_open_expired (now : Time) (cb : CircuitBreaker World)
    (w : World) (notify : StateChangeNotificationFunc World) :
  state cb = Open -> generation cb < now ->
  OnStateChange (opt cb) = Some notify ->
  postStartHook now cb w
  = let cb' := moved now HalfOpen cb in
    let w' := notify (mkEvent now Open HalfOpen ReasonOpenStateExpired) w in
    if HalfOpenRequestLimit (opt cb) <? 0
    then Done (generation cb', Some ErrHalfOpenButExceedRequestLimit) cb' w'
    else Done (generation cb', None) (counted cb') w'.
Proof.
  intros Hs Hn Hf. unfold postStartHook, After. run_monad. rewrite Hs.
  assert (E : (generation cb <? now) = true) by (apply Z.ltb_lt; lia).
  rewrite E. simpl. rewrite Hf. simpl. rewrite !moved_eq, Hs.
  destruct (Add now (GenerationInterval (opt cb)) <? now); simpl;
    rewrite ?moveToNextGeneration_moved;
    destruct (HalfOpenRequestLimit (opt cb) <? 0); reflexivity.
Qed.

Lemma postStartHook_halfopen_closes (now : Time) (cb : CircuitBreaker World)
    (w : World) (notify : StateChangeNotificationFunc World) :
  state cb = HalfOpen ->
  SuccessThreshold (opt cb) <= Success (counts cb) ->
  OnStateChange (opt cb) = Some notify ->
  postStartHook now cb w
  = Done (Add now (GenerationInterval (opt cb)), None)
      (counted (moved now Closed cb))
      (notify (mkEvent now HalfOpen Closed ReasonReachThreshold) w).
Proof.
  intros Hs Ht Hf. unfold postStartHook, After. run_monad. rewrite Hs.
  assert (E : (SuccessThreshold (opt cb) <=? Success (counts cb)) = true)
    by (apply Z.leb_le; lia).
  rewrite E. simpl. rewrite Hf. simpl. rewrite !moved_eq, Hs.
  destruct (Add now (GenerationInterval (opt cb)) <? now); simpl;
    rewrite ?moveToNextGeneration_moved; reflexivity.
Qed.

Lemma postStartHook_closed (now : Time) (cb : CircuitBreaker World) (w : World)
    (trip : ShouldTripFunc) :
  state cb = Closed -> shouldTrip (opt cb) = Some trip ->
  postStartHook now cb w
  = if trip (counts cb)
    then match OnStateChange (opt cb) with
         | None => Panicked NilFuncCall (moved now Open cb) w
         | Some notify =>
             Done (Add now (OpenStateExpiry (opt cb)), Some ErrIsOpen)
               (moved now Open cb)
               (notify (mkEvent now Closed Open ReasonReachThreshold) w)
         end
    else if After now (generation cb)
         then Done (Add now (GenerationInterval (opt cb)), None)
                (counted (moved now Closed cb)) w
         else Done (generation cb, None) (counted cb) w.
Proof.
  intros Hs Hp. unfold postStartHook, After. run_monad. rewrite Hs, Hp.
  destruct (trip (counts cb)); simpl.
  - rewrite !moved_eq, Hs.
    destruct (OnStateChange (opt cb)); simpl; [|reflexivity].
    destruct (Add now (OpenStateExpiry (opt cb)) <? now); simpl;
      rewrite ?moveToNextGeneration_moved; reflexivity.
  - destruct (generation cb <? now) eqn:E; simpl.
    + replace (moveToNextGeneration now cb) with (moved now Closed cb).
      * reflexivity.
      * rewrite <- moved_eq. rewrite <- Hs. destruct cb; reflexivity.
    + rewrite Hs. reflexivity.
Qed.

Lemma postStartHook_halfopen_probing (now : Time) (cb : CircuitBreaker World)
    (w : World) :
  state cb = HalfOpen ->
  Success (counts cb) < SuccessThreshold (opt cb) ->
  now <= generation cb ->
  postStartHook now cb w
  = if HalfOpenRequestLimit (opt cb) <? Request (counts cb)
    then Done (generation cb, Some ErrHalfOpenButExceedRequestLimit) cb w
    else Done (generation cb, None) (counted cb) w.
Proof.
  intros Hs Ht Hn. unfold postStartHook, After. run_monad. rewrite Hs.
  assert (E : (SuccessThreshold (opt cb) <=? Success (counts cb)) = false)
    by (apply Z.leb_gt; lia).
  assert (E' : (generation cb <? now) = false) by (apply Z.ltb_ge; lia).
  rewrite E. simpl. rewrite E'. simpl. rewrite Hs.
  destruct (HalfOpenRequestLimit (opt cb) <? Request (counts cb)); reflexivity.
Qed.

(** ** The completion phase *)

Lemma preStopHook_stale (g : Time) (ok : bool) (now : Time)
    (cb : CircuitBreaker World) (w : World) :
  g <> generation cb -> preStopHook g ok now cb w = Done tt cb w.
Proof.
  intros H. unfold preStopHook. run_monad.
  apply Z.eqb_neq in H. rewrite H. reflexivity.
Qed.

Lemma recorded_state (ok : bool) (cb : CircuitBreaker World) :
  state (recorded ok cb) = state cb.
Proof. destruct ok; reflexivity. Qed.

Lemma recorded_opt (ok : bool) (cb : CircuitBreaker World) :
  opt (recorded ok cb) = opt cb.
Proof. destruct ok; reflexivity. Qed.

Lemma preStopHook_current (ok : bool) (now : Time) (cb : CircuitBreaker World)
    (w : World) :
  preStopHook (generation cb) ok now cb w
  = match state cb, ok with
    | HalfOpen, false =>
        changeState now Open ReasonFailedOnHalfOpenState (recorded false cb) w
    | _, _ => Done tt (recorded ok cb) w
    end.
Proof.
  destruct cb as [o st g c].
  unfold preStopHook, bind, get, modify, ret. simpl generation.
  rewrite Z.eqb_refl. destruct st, ok; reflexivity.
Qed.

Lemma moved_recorded (now : Time) (s : State) (ok : bool)
    (cb : CircuitBreaker World) :
  moved now s (recorded ok cb) = moved now s cb.
Proof. unfold moved. rewrite recorded_opt. reflexivity. Qed.

Lemma preStopHook_halfopen_failure (now : Time) (cb : CircuitBreaker World)
    (w : World) :
  state cb = HalfOpen ->
  preStopHook (generation cb) false now cb w
  = match OnStateChange (opt cb) with
    | None => Panicked NilFuncCall (moved now Open cb) w
    | Some notify =>
        Done tt (moved now Open cb)
          (notify (mkEvent now HalfOpen Open ReasonFailedOnHalfOpenState) w)
    end.
Proof.
  intros Hs. rewrite preStopHook_current, Hs.
  destruct (OnStateChange (opt cb)) as [notify|] eqn:Hf.
  - rewrite (changeState_notifies _ _ _ _ _ notify)
      by (rewrite recorded_opt; exact Hf).
    rewrite moved_recorded, recorded_state, Hs. reflexivity.
  - rewrite changeState_nil by (rewrite recorded_opt; exact Hf).
    rewrite moved_recorded. reflexivity.
Qed.

Lemma preStopHook_no_transition (ok : bool) (now : Time)
    (cb : CircuitBreaker World) (w : World) :
  state cb <> HalfOpen \/ ok = true ->
  preStopHook (generation cb) ok now cb w = Done tt (recorded ok cb) w.
Proof.
  intros H. rewrite preStopHook_current.
  destruct (state cb), ok; try reflexivity.
  destruct H; [contradiction | discriminate].
Qed.

(** A completion panics only on the nil sink. *)
Lemma preStopHook_done (g : Time) (ok : bool) (now : Time)
    (cb : CircuitBreaker World) (w : World) :
  OnStateChange (opt cb) <> None ->
  exists cb' w', preStopHook g ok now cb w = Done tt cb' w'.
Proof.
  intros Hf. destruct (Z.eq_dec g (generation cb)) as [->|Hg].
  - rewrite preStopHook_current.
    destruct (OnStateChange (opt cb)) as [notify|] eqn:E; [|contradiction].
    destruct (state cb), ok; try (eexists; eexists; reflexivity).
    rewrite (changeState_notifies _ _ _ _ _ notify)
      by (rewrite recorded_opt; exact E).
    eexists; eexists; reflexivity.
  - rewrite preStopHook_stale by exact Hg. eexists; eexists; reflexivity.
Qed.

(** ** [Do], phase by phase *)

Lemma Do_rejected (handle : HandleFunc World) (now fin fin' : Time)
    (cb cb1 : CircuitBreaker World) (w w1 : World) (g : Time) (err : error) :
  postStartHook now cb w = Done (g, Some err) cb1 w1 ->
  Do handle now fin fin' cb w = Done (Nil, Some err) cb1 w1.
Proof. intros H. unfold Do. rewrite H. reflexivity. Qed.

Lemma Do_returned (handle : HandleFunc World) (now fin fin' : Time)
    (cb cb1 cb2 cb3 : CircuitBreaker World) (w w1 w2 w3 : World) (g : Time)
    (resp : Any) (err : option error) :
  postStartHook now cb w = Done (g, None) cb1 w1 ->
  handle cb1 w1 = (Returned resp err, cb2, w2) ->
  preStopHook g (isNil err) fin cb2 w2 = Done tt cb3 w3 ->
  Do handle now fin fin' cb w = Done (resp, err) cb3 w3.
Proof.
  intros Ha Hh Hc. unfold Do. rewrite Ha, Hh. fold (isNil err).
  rewrite Hc. reflexivity.
Qed.

Lemma Do_panicked (handle : HandleFunc World) (now fin fin' : Time)
    (cb cb1 cb2 cb3 : CircuitBreaker World) (w w1 w2 w3 : World) (g : Time)
    (e : PanicValue) :
  postStartHook now cb w = Done (g, None) cb1 w1 ->
  handle cb1 w1 = (Panics e, cb2, w2) ->
  preStopHook g false fin' cb2 w2 = Done tt cb3 w3 ->
  Do handle now fin fin' cb w = Panicked e cb3 w3.
Proof.
  intros Ha Hh Hc. unfold Do. rewrite Ha, Hh.
  unfold recoverAndRecord, bind, panic. rewrite Hc. reflexivity.
Qed.

(** ** Sequences of calls *)

Lemma DoAll_cons (c : Call World) (rest : list (Call World))
    (cb cb' : CircuitBreaker World)
    (w w' : World) (r : Any * option error) :
  Do (handle_of c) (admitted_at c) (completed_at c) (deferred_at c) cb w
  = Done r cb' w' ->
  DoAll (c :: rest) cb w
  = match DoAll rest cb' w' with
    | Done rs cb'' w'' => Done (r :: rs) cb'' w''
    | Panicked p cb'' w'' => Panicked p cb'' w''
    end.
Proof. intros H. simpl. unfold bind. rewrite H. reflexivity. Qed.

Lemma DoAll_app (xs ys : list (Call World)) (cb cb' : CircuitBreaker World)
    (w w' : World)
    (rs : list (Any * option error)) :
  DoAll xs cb w = Done rs cb' w' ->
  DoAll (xs ++ ys) cb w
  = match DoAll ys cb' w' with
    | Done rs' cb'' w'' => Done (rs ++ rs') cb'' w''
    | Panicked p cb'' w'' => Panicked p cb'' w''
    end.
Proof.
  revert cb w rs. induction xs as [|c xs IH]; intros cb w rs H.
  - simpl in H. unfold ret in H. injection H as <- <- <-. simpl.
    destruct (DoAll ys cb w); reflexivity.
  - simpl in H. unfold bind in H. simpl app.
    destruct (Do (handle_of c) (admitted_at c) (completed_at c)
                (deferred_at c) cb w) as [r cb1 w1|] eqn:E; [|discriminate].
    rewrite (DoAll_cons _ _ _ _ _ _ _ E).
    destruct (DoAll xs cb1 w1) as [rs1 cb2 w2|] eqn:E1; [|discriminate].
    unfold ret in H. injection H as <- <- <-.
    rewrite (IH _ _ _ E1). destruct (DoAll ys cb2 w2); reflexivity.
Qed.

Lemma Do_open_waiting (handle : HandleFunc World) (now fin fin' : Time)
    (cb : CircuitBreaker World) (w : World) :
  state cb = Open -> now <= generation cb ->
  Do handle now fin fin' cb w = Done (Nil, Some ErrIsOpen) cb w.
Proof.
  intros Hs Hn. apply Do_rejected with (g := generation cb).
  apply postStartHook_open_waiting; assumption.
Qed.

Lemma DoAll_open_waiting (calls : list (Call World)) (cb : CircuitBreaker World)
    (w : World) :
  state cb = Open ->
  Forall (fun c => admitted_at c <= generation cb) calls ->
  DoAll calls cb w = Done (map rejected_open calls) cb w.
Proof.
  intros Hs Hall. induction Hall as [|c rest Hc Hrest IH].
  - reflexivity.
  - rewrite (DoAll_cons _ _ _ _ _ _ _
               (Do_open_waiting (handle_of c) _ _ _ _ w Hs Hc)).
    rewrite IH. reflexivity.
Qed.

(** A failing call on a closed breaker below its threshold, inside the
    counting window: admitted, counted as a request and as a failure. *)
Lemma Do_closed_failure (c : Time * Any * error)
    (cb : CircuitBreaker World) (w : World) (trip : ShouldTripFunc) :
  state cb = Closed -> shouldTrip (opt cb) = Some trip ->
  trip (counts cb) = false ->
  fst (fst c) <= generation cb ->
  Do (handle_of (failing c)) (admitted_at (failing (World := World) c))
    (completed_at (failing (World := World) c))
    (deferred_at (failing (World := World) c)) cb w
  = Done (failure_of c) (recorded false (counted cb)) w.
Proof.
  destruct c as [[t resp] e]. simpl. intros Hs Hp Ht Hn.
  eapply Do_returned.
  - rewrite (postStartHook_closed _ _ _ trip Hs Hp), Ht. unfold After.
    assert (E : (generation cb <? t) = false) by (apply Z.ltb_ge; lia).
    rewrite E. reflexivity.
  - reflexivity.
  - simpl isNil.
    change (generation cb) with (generation (counted cb)).
    apply preStopHook_no_transition. left.
    change (state (counted cb)) with (state cb). rewrite Hs. discriminate.
Qed.

Lemma DoAll_closed_failures (FT : Z) (pre : list (Time * Any * error))
    (cb : CircuitBreaker World) (w : World) :
  state cb = Closed -> shouldTrip (opt cb) = Some (defaultTrip FT) ->
  0 <= Failure (counts cb) ->
  Failure (counts cb) + Z.of_nat (List.length pre) <= FT <= int64_max ->
  Forall (fun c => fst (fst c) <= generation cb) pre ->
  exists cb',
    DoAll (map failing pre) cb w = Done (map failure_of pre) cb' w
    /\ state cb' = Closed /\ opt cb' = opt cb
    /\ generation cb' = generation cb
    /\ Success (counts cb') = Success (counts cb)
    /\ Failure (counts cb') = Failure (counts cb) + Z.of_nat (List.length pre).
Proof.
  intros Hs Hp H0 Hk Hall. revert cb Hs Hp H0 Hk Hall.
  induction pre as [|c pre IH]; intros cb Hs Hp H0 Hk Hall.
  - exists cb. simpl. repeat split; try assumption; try reflexivity. lia.
  - inversion Hall as [|c' pre' Hc Hrest]; subst.
    simpl List.length in Hk. rewrite Nat2Z.inj_succ in Hk.
    assert (Ht : defaultTrip FT (counts cb) = false)
      by (unfold defaultTrip; apply Z.leb_gt; lia).
    pose proof (Do_closed_failure c cb w _ Hs Hp Ht Hc) as Hdo.
    set (cb1 := recorded false (counted cb)) in *.
    assert (HF1 : Failure (counts cb1) = Failure (counts cb) + 1).
    { unfold cb1. simpl. apply incr64_succ.
      unfold int64_min, int64_max in *. lia. }
    destruct (IH cb1) as [cb' (Hrun & Hs' & Ho' & Hg' & HS' & HF')].
    + exact Hs.
    + exact Hp.
    + lia.
    + lia.
    + exact Hrest.
    + exists cb'. simpl map. rewrite (DoAll_cons _ _ _ _ _ _ _ Hdo), Hrun.
      repeat split; try assumption.
      simpl List.length. rewrite Nat2Z.inj_succ. lia.
Qed.

(** ** Sequential use keeps the counts balanced *)

(** What an admission can leave behind: the breaker as it was or with its
    counts zeroed, and one more request when the call is admitted. *)
Lemma postStartHook_shape (now : Time) (cb : CircuitBreaker World)
    (w : World) :
  let r := postStartHook now cb w in
  opt (breaker_of r) = opt cb
  /\ match r with
     | Done (g, None) cb1 _ =>
         g = generation cb1
         /\ exists base, cb1 = counted base
                         /\ (base = cb \/ counts base = mkCounts 0 0 0)
     | Done (_, Some _) cb1 _ | Panicked _ cb1 _ =>
         cb1 = cb \/ counts cb1 = mkCounts 0 0 0
     end.
Proof.
  destruct cb as [o st g c]. cbv zeta.
  unfold postStartHook, changeState, bind, get, modify, act, ret, panic, After.
  destruct st; simpl;
    repeat match goal with
      | |- context [if ?b then _ else _] => destruct b eqn:?; simpl
      | |- context [match shouldTrip ?o with _ => _ end] =>
          destruct (shouldTrip o) eqn:?; simpl
      | |- context [match OnStateChange ?o with _ => _ end] =>
          destruct (OnStateChange o) eqn:?; simpl
      end;
    (split; [reflexivity|]);
    try (right; reflexivity); try (left; reflexivity);
    (split; [reflexivity|]);
    match goal with
    | |- exists base, set_counts _ ?B = counted base /\ _ => exists B
    end;
    (split; [reflexivity|]);
    try (left; reflexivity); right; reflexivity.
Qed.

Lemma balanced_zero (cb : CircuitBreaker World) :
  counts cb = mkCounts 0 0 0 -> balanced cb.
Proof. intros H. unfold balanced. rewrite H. simpl. lia. Qed.

(** The completion of a call just admitted, on a breaker nobody else
    touched. *)
Lemma preStopHook_balanced (ok : bool) (now : Time)
    (base : CircuitBreaker World) (w : World) :
  balanced base -> Request (counts base) < int64_max ->
  OnStateChange (opt base) <> None ->
  exists cb3 w3,
    preStopHook (generation (counted base)) ok now (counted base) w
    = Done tt cb3 w3
    /\ balanced cb3 /\ opt cb3 = opt base
    /\ Request (counts cb3) <= Request (counts base) + 1.
Proof.
  intros (HS & HF & HR) Hmax Hsink.
  assert (Hr : incr64 (Request (counts base)) = Request (counts base) + 1)
    by (apply incr64_succ; unfold int64_min, int64_max in *; lia).
  assert (Hs : incr64 (Success (counts base)) = Success (counts base) + 1)
    by (apply incr64_succ; unfold int64_min, int64_max in *; lia).
  assert (Hf : incr64 (Failure (counts base)) = Failure (counts base) + 1)
    by (apply incr64_succ; unfold int64_min, int64_max in *; lia).
  rewrite preStopHook_current.
  destruct (OnStateChange (opt base)) as [notify|] eqn:E; [|contradiction].
  assert (Hrec : forall b, balanced (recorded b (counted base))
                           /\ opt (recorded b (counted base)) = opt base
                           /\ Request (counts (recorded b (counted base)))
                              <= Request (counts base) + 1).
  { intros b. unfold balanced. destruct b; simpl; rewrite ?Hr, ?Hs, ?Hf;
      repeat split; lia. }
  change (state (counted base)) with (state base).
  destruct (state base), ok;
    try (exists (recorded true (counted base)), w;
         split; [reflexivity | apply Hrec]);
    try (exists (recorded false (counted base)), w;
         split; [reflexivity | apply Hrec]).
  rewrite (changeState_notifies _ _ _ _ _ notify)
    by (rewrite recorded_opt; exact E).
  eexists; eexists. split; [reflexivity|].
  split; [apply balanced_zero; reflexivity|].
  split; [reflexivity|]. simpl. lia.
Qed.

Lemma Do_balanced (handle : HandleFunc World) (now fin fin' : Time)
    (cb : CircuitBreaker World) (w : World) :
  quiet handle -> balanced cb -> Request (counts cb) < int64_max ->
  OnStateChange (opt cb) <> None ->
  let r := Do handle now fin fin' cb w in
  balanced (breaker_of r) /\ opt (breaker_of r) = opt cb
  /\ Request (counts (breaker_of r)) <= Request (counts cb) + 1.
Proof.
  intros Hq Hb Hmax Hsink. cbv zeta.
  assert (Hsame : forall cb1 : CircuitBreaker World,
             opt cb1 = opt cb ->
             cb1 = cb \/ counts cb1 = mkCounts 0 0 0 ->
             balanced cb1 /\ opt cb1 = opt cb
             /\ Request (counts cb1) <= Request (counts cb) + 1).
  { intros cb1 Ho [->|Hz]; [repeat split; try apply Hb; lia|].
    split; [apply balanced_zero; exact Hz|]. split; [exact Ho|].
    rewrite Hz. simpl. destruct Hb as (? & ? & ?). lia. }
  pose proof (postStartHook_shape now cb w) as Hshape. cbv zeta in Hshape.
  unfold Do.
  destruct (postStartHook now cb w) as [[g [err|]] cb1 w1|p cb1 w1];
    simpl in Hshape; destruct Hshape as [Ho Hshape].
  - simpl. apply Hsame; assumption.
  - destruct Hshape as (-> & base & -> & Hbase).
    change (opt (counted base)) with (opt base) in Ho.
    assert (Hb' : balanced base /\ Request (counts base) < int64_max
                  /\ Request (counts base) <= Request (counts cb)).
    { destruct Hbase as [->|Hz]; [repeat split; try apply Hb; lia|].
      split; [apply balanced_zero; exact Hz|]. rewrite Hz. simpl.
      destruct Hb as (? & ? & ?). unfold int64_max. lia. }
    destruct Hb' as (Hbb & Hbm & Hbr).
    assert (Hbs : OnStateChange (opt base) <> None)
      by (rewrite Ho; exact Hsink).
    pose proof (Hq (counted base) w1) as Hquiet.
    destruct (handle (counted base) w1) as [[out cb2] w2].
    simpl in Hquiet. subst cb2.
    destruct out as [resp err|e].
    + destruct (preStopHook_balanced (isNil err) fin base w2 Hbb Hbm Hbs)
        as (cb3 & w3 & Hrun & Hb3 & Ho3 & Hr3).
      rewrite Hrun. simpl. repeat split; try apply Hb3; [congruence | lia].
    + destruct (preStopHook_balanced false fin' base w2 Hbb Hbm Hbs)
        as (cb3 & w3 & Hrun & Hb3 & Ho3 & Hr3).
      unfold recoverAndRecord, bind, panic. rewrite Hrun. simpl.
      repeat split; try apply Hb3; [congruence | lia].
  - simpl. apply Hsame; assumption.
Qed.

(** ** The claims that hold of every breaker *)

(** C4.  While the breaker is open and the clock has not passed the expiry kept
    in [generation], every [Do] returns [ErrIsOpen] whatever the wrapped
    operation is, and leaves breaker and world as they were: the operation is
    not invoked; so does every call of a sequence of calls made before the
    expiry.  Once the clock is past the expiry, the next admission first
    moves the breaker to half-open, notifying the sink with reason
    "open state expired", and decides admission on that fresh half-open
    breaker: zero requests against the half-open limit. *)
Theorem open_rejects_until_expiry (cb : CircuitBreaker World) (w : World) :
  state cb = Open ->
  (forall (handle : HandleFunc World) (now fin fin' : Time),
      now <= generation cb ->
      Do handle now fin fin' cb w = Done (Nil, Some ErrIsOpen) cb w)
  /\
  (forall calls : list (Call World),
      Forall (fun c => admitted_at c <= generation cb) calls ->
      DoAll calls cb w = Done (map rejected_open calls) cb w)
  /\
  (forall (notify : StateChangeNotificationFunc World) (now : Time),
      OnStateChange (opt cb) = Some notify ->
      generation cb < now ->
      let cb' := moved now HalfOpen cb in
      let w' := notify (mkEvent now Open HalfOpen ReasonOpenStateExpired) w in
      changeState now HalfOpen ReasonOpenStateExpired cb w = Done tt cb' w'
      /\ state cb' = HalfOpen
      /\ postStartHook now cb w
         = if HalfOpenRequestLimit (opt cb') <? Request (counts cb')
           then Done (generation cb', Some ErrHalfOpenButExceedRequestLimit)
                  cb' w'
           else Done (generation cb', None) (counted cb') w').
Proof.
  intros Hs. split; [|split].
  - intros handle now fin fin' Hn. apply Do_open_waiting; assumption.
  - intros calls Hall. apply DoAll_open_waiting; assumption.
  - intros notify now Hf Hn. cbv zeta. repeat split.
    + rewrite (changeState_notifies _ _ _ _ _ notify Hf), Hs. reflexivity.
    + rewrite (postStartHook_open_expired _ _ _ notify Hs Hn Hf). reflexivity.
Qed.

(** C5.  A completion whose captured token differs from the breaker's current
    generation changes nothing: the counts, the state, the generation (and the
    world) after it are those before it, for a success and for a failure. *)
Theorem stale_outcome_discarded (g : Time) (handleSuccess : bool)
    (now : Time) (cb : CircuitBreaker World) (w : World) :
  g <> generation cb ->
  preStopHook g handleSuccess now cb w = Done tt cb w.
Proof. apply preStopHook_stale. Qed.

(** C6.  In a half-open breaker the completion of one failed probe carrying
    the current token moves the breaker to open at once: the sink receives the
    event with reason "failed on half-open state", the counts are zero again
    (whatever successes had accumulated), and the open expiry starts at the
    completion time. *)
Theorem half_open_failure_reopens (now : Time) (cb : CircuitBreaker World)
    (w : World) (notify : StateChangeNotificationFunc World) :
  state cb = HalfOpen ->
  OnStateChange (opt cb) = Some notify ->
  exists cb',
    preStopHook (generation cb) false now cb w
    = Done tt cb'
        (notify (mkEvent now HalfOpen Open ReasonFailedOnHalfOpenState) w)
    /\ state cb' = Open
    /\ counts cb' = mkCounts 0 0 0
    /\ generation cb' = Add now (OpenStateExpiry (opt cb))
    /\ opt cb' = opt cb.
Proof.
  intros Hs Hf. exists (moved now Open cb).
  rewrite (preStopHook_halfopen_failure _ _ _ Hs), Hf.
  repeat split.
Qed.


(** C9.  With a nil sink every transition panics with the runtime's nil-call
    error, after the fields have been written: [changeState] itself for any
    target state, hence [Reset], the trip of a closed breaker, the expiry of an
    open one, the closing of a half-open one, and the reopening of a half-open
    one by a failed probe. *)
Theorem nil_sink_panics_on_every_transition (cb : CircuitBreaker World)
    (w : World) :
  OnStateChange (opt cb) = None ->
  (forall now s reason,
      changeState now s reason cb w = Panicked NilFuncCall (moved now s cb) w)
  /\ (forall now, Reset now cb w = Panicked NilFuncCall (moved now Closed cb) w)
  /\ (forall now trip,
        state cb = Closed -> shouldTrip (opt cb) = Some trip ->
        trip (counts cb) = true ->
        postStartHook now cb w = Panicked NilFuncCall (moved now Open cb) w)
  /\ (forall now,
        state cb = Open -> generation cb < now ->
        postStartHook now cb w
        = Panicked NilFuncCall (moved now HalfOpen cb) w)
  /\ (forall now,
        state cb = HalfOpen ->
        SuccessThreshold (opt cb) <= Success (counts cb) ->
        postStartHook now cb w = Panicked NilFuncCall (moved now Closed cb) w)
  /\ (forall now,
        state cb = HalfOpen ->
        preStopHook (generation cb) false now cb w
        = Panicked NilFuncCall (moved now Open cb) w).
Proof.
  intros Hf.
  assert (Hc : forall now s reason,
             changeState now s reason cb w
             = Panicked NilFuncCall (moved now s cb) w)
    by (intros; apply changeState_nil; exact Hf).
  split; [exact Hc|]. split; [intros; apply Hc|].
  split; [|split; [|split]].
  - intros now trip Hs Hp Ht.
    rewrite (postStartHook_closed _ _ _ trip Hs Hp), Ht, Hf. reflexivity.
  - intros now Hs Hn. unfold postStartHook, After.
    unfold bind at 1. unfold get at 1. rewrite Hs.
    apply Z.ltb_lt in Hn. rewrite Hn. unfold bind. rewrite Hc. reflexivity.
  - intros now Hs Ht. unfold postStartHook.
    unfold bind at 1. unfold get at 1. rewrite Hs.
    apply Z.leb_le in Ht. rewrite Ht. unfold bind. rewrite Hc. reflexivity.
  - intros now Hs. rewrite (preStopHook_halfopen_failure _ _ _ Hs), Hf.
    reflexivity.
Qed.

(** ** The claims that hold in an amended form *)

(** C1, amended.  A closed breaker with the default trip function does not
    move when the failure that reaches the threshold is recorded: after the
    failing calls that bring the failure count to the threshold, inside the
    counting window, it is still closed and the sink has received nothing.  It
    is the admission of the next call that moves it to open: that call is
    rejected with [ErrIsOpen] and the sink receives one event, with reason
    "reach threshold"; the calls after it, up to the open expiry, are rejected
    the same way without any further event. *)
Theorem threshold_trips_at_next_admission
    (pre : list (Time * Any * error)) (next : Call World)
    (post : list (Call World)) (cb : CircuitBreaker World) (w : World)
    (notify : StateChangeNotificationFunc World) :
  state cb = Closed ->
  shouldTrip (opt cb) = Some (defaultTrip (FailureThreshold (opt cb))) ->
  OnStateChange (opt cb) = Some notify ->
  0 <= Failure (counts cb) ->
  Failure (counts cb) + Z.of_nat (List.length pre)
  = FailureThreshold (opt cb) ->
  FailureThreshold (opt cb) <= int64_max ->
  Forall (fun c => fst (fst c) <= generation cb) pre ->
  Forall (fun c => admitted_at c
                   <= Add (admitted_at next) (OpenStateExpiry (opt cb))) post ->
  let ev := mkEvent (admitted_at next) Closed Open ReasonReachThreshold in
  (exists cb',
      DoAll (map failing pre) cb w = Done (map failure_of pre) cb' w
      /\ state cb' = Closed
      /\ Failure (counts cb') = FailureThreshold (opt cb))
  /\ DoAll (map failing pre ++ next :: post) cb w
     = Done (map failure_of pre ++ rejected_open next :: map rejected_open post)
         (moved (admitted_at next) Open cb) (notify ev w).
Proof.
  intros Hs Hp Hf H0 Hk Hmax Hpre Hpost. cbv zeta.
  destruct (DoAll_closed_failures (FailureThreshold (opt cb)) pre cb w
              Hs Hp H0) as [cb' (Hrun & Hs' & Ho' & Hg' & HS' & HF')];
    [lia | exact Hpre |].
  split.
  - exists cb'. repeat split; [exact Hrun | exact Hs' | lia].
  - rewrite (DoAll_app _ _ _ _ _ _ _ Hrun).
    assert (Hnext :
              Do (handle_of next) (admitted_at next) (completed_at next)
                (deferred_at next) cb' w
              = Done (rejected_open next) (moved (admitted_at next) Open cb)
                  (notify (mkEvent (admitted_at next) Closed Open
                             ReasonReachThreshold) w)).
    { apply Do_rejected
        with (g := Add (admitted_at next) (OpenStateExpiry (opt cb'))).
      rewrite (postStartHook_closed _ _ _
                 (defaultTrip (FailureThreshold (opt cb)))
                 Hs') by (rewrite Ho'; exact Hp).
      assert (Ht : defaultTrip (FailureThreshold (opt cb)) (counts cb') = true)
        by (unfold defaultTrip; apply Z.leb_le; lia).
      rewrite Ht, Ho', Hf. unfold moved. rewrite Ho'. reflexivity. }
    rewrite (DoAll_cons _ _ _ _ _ _ _ Hnext).
    rewrite DoAll_open_waiting; [reflexivity | reflexivity | exact Hpost].
Qed.

(** C3, amended.  The trip condition is a field of the configuration, but not
    one a caller can fill: [New] overwrites it, whatever it held, with the
    default "failure count >= failure threshold" over the defaulted threshold.
    A closed breaker trips at an admission exactly when the predicate it holds
    is true of the current counts; the admission is then rejected with
    [ErrIsOpen] and the sink, when there is one, is notified. *)
Theorem closed_trips_on_installed_predicate (o : Option World) (t0 : Time)
    (cb0 : CircuitBreaker World) :
  New o t0 = inr cb0 ->
  (FailureThreshold (opt cb0)
   = orDefault (FailureThreshold o) DefaultFailureThreshold
   /\ shouldTrip (opt cb0)
      = Some (fun c => FailureThreshold (opt cb0) <=? Failure c))
  /\ (forall (cb : CircuitBreaker World) (w : World) (now : Time)
        (trip : ShouldTripFunc),
        state cb = Closed -> shouldTrip (opt cb) = Some trip ->
        (state (breaker_of (postStartHook now cb w)) = Open
         <-> trip (counts cb) = true)
        /\ (forall notify, OnStateChange (opt cb) = Some notify ->
            trip (counts cb) = true ->
            postStartHook now cb w
            = Done (Add now (OpenStateExpiry (opt cb)), Some ErrIsOpen)
                (moved now Open cb)
                (notify (mkEvent now Closed Open ReasonReachThreshold) w))).
Proof.
  intros HN. split.
  - unfold New in HN.
    destruct (orDefault (HalfOpenRequestLimit o) DefaultHalfOpenRequestLimit
              <? orDefault (SuccessThreshold o) DefaultSuccessThreshold);
      [discriminate|].
    injection HN as <-. split; reflexivity.
  - intros cb w now trip Hs Hp.
    rewrite (postStartHook_closed _ _ _ trip Hs Hp). split.
    + destruct (trip (counts cb)).
      * split; [reflexivity|]. intros _.
        destruct (OnStateChange (opt cb)); reflexivity.
      * split; [|discriminate].
        destruct (After now (generation cb)); simpl; try discriminate.
        rewrite Hs. discriminate.
    + intros notify Hf Ht. rewrite Ht, Hf. reflexivity.
Qed.


(** ** Further properties of the breaker *)

(** When the breaker moved to another generation while the operation ran, [Do]
    leaves the breaker and the world exactly as the operation left them,
    whether the operation returned or panicked. *)
Lemma Do_stale_completion (handle : HandleFunc World) (now fin fin' : Time)
    (cb cb1 cb2 : CircuitBreaker World) (w w1 w2 : World) (g : Time)
    (out : HandleOutcome) :
  postStartHook now cb w = Done (g, None) cb1 w1 ->
  handle cb1 w1 = (out, cb2, w2) ->
  g <> generation cb2 ->
  Do handle now fin fin' cb w
  = match out with
    | Returned resp err => Done (resp, err) cb2 w2
    | Panics e => Panicked e cb2 w2
    end.
Proof.
  intros Ha Hh Hg. destruct out as [resp err|e].
  - apply (Do_returned _ _ _ _ _ _ _ _ _ _ _ _ _ _ _ Ha Hh).
    apply preStopHook_stale. exact Hg.
  - apply (Do_panicked _ _ _ _ _ _ _ _ _ _ _ _ _ _ Ha Hh).
    apply preStopHook_stale. exact Hg.
Qed.

(** [Reset] moves the breaker to closed from any state, with zeroed counts, a
    new counting window and the notification "manually reset". *)
Theorem Reset_closes (now : Time) (cb : CircuitBreaker World) (w : World)
    (notify : StateChangeNotificationFunc World) :
  OnStateChange (opt cb) = Some notify ->
  exists cb',
    Reset now cb w
    = Done tt cb' (notify (mkEvent now (state cb) Closed ReasonManuallyReset) w)
    /\ state cb' = Closed
    /\ counts cb' = mkCounts 0 0 0
    /\ generation cb' = Add now (GenerationInterval (opt cb))
    /\ opt cb' = opt cb.
Proof.
  intros Hf. exists (moved now Closed cb). unfold Reset.
  rewrite (changeState_notifies _ _ _ _ _ notify Hf). repeat split.
Qed.

(** A half-open breaker below its success threshold and inside its window
    rejects a call once the request count is above the half-open limit: [Do]
    returns [ErrHalfOpenButExceedRequestLimit] whatever the operation is, and
    nothing changes. *)
Theorem half_open_rejects_above_limit (handle : HandleFunc World)
    (now fin fin' : Time) (cb : CircuitBreaker World) (w : World) :
  state cb = HalfOpen ->
  Success (counts cb) < SuccessThreshold (opt cb) ->
  now <= generation cb ->
  HalfOpenRequestLimit (opt cb) < Request (counts cb) ->
  Do handle now fin fin' cb w
  = Done (Nil, Some ErrHalfOpenButExceedRequestLimit) cb w.
Proof.
  intros Hs Ht Hn Hl. apply Do_rejected with (g := generation cb).
  rewrite (postStartHook_halfopen_probing _ _ _ Hs Ht Hn).
  apply Z.ltb_lt in Hl. rewrite Hl. reflexivity.
Qed.

Lemma New_balanced (o : Option World) (t0 : Time) (cb : CircuitBreaker World) :
  New o t0 = inr cb ->
  balanced cb /\ state cb = Closed /\ OnStateChange (opt cb) = OnStateChange o.
Proof.
  unfold New. intros H.
  destruct (orDefault (HalfOpenRequestLimit o) DefaultHalfOpenRequestLimit
            <? orDefault (SuccessThreshold o) DefaultSuccessThreshold);
    [discriminate|].
  injection H as <-. split; [apply balanced_zero; reflexivity|].
  split; reflexivity.
Qed.


(** ** Construction *)

(** [New] refuses a configuration exactly when, after the defaults are filled
    in, the half-open limit is below the success threshold; the limit left
    at zero counts as 200 in that comparison, the threshold left at zero as
    100.  It then panics with its message and builds nothing. *)
Theorem New_panics_iff (o : Option World) (now : Time) :
  (orDefault (HalfOpenRequestLimit o) DefaultHalfOpenRequestLimit
   < orDefault (SuccessThreshold o) DefaultSuccessThreshold
   <-> New o now
       = inl (Raised
                (Str
                   "half-open request limit should greater than success threshold")))
  /\ (orDefault (SuccessThreshold o) DefaultSuccessThreshold
      <= orDefault (HalfOpenRequestLimit o) DefaultHalfOpenRequestLimit
      <-> exists cb, New o now = inr cb).
Proof.
  unfold New.
  destruct (orDefault (HalfOpenRequestLimit o) DefaultHalfOpenRequestLimit
            <? orDefault (SuccessThreshold o) DefaultSuccessThreshold) eqn:E.
  - apply Z.ltb_lt in E. split; split; intros H.
    + reflexivity.
    + exact E.
    + lia.
    + destruct H as [cb H]. discriminate.
  - apply Z.ltb_ge in E. split; split; intros H.
    + lia.
    + discriminate.
    + eexists. reflexivity.
    + exact E.
Qed.

(** Every breaker [New] builds is closed with zero counts and a window that
    expires one generation interval after the construction; none of its five
    numeric settings is zero, its half-open limit is not below its success
    threshold, its sink is the one given and its trip function is the default
    over its failure threshold; and building again from the configuration it
    holds gives the same breaker: the defaults are filled in once and for
    all. *)
Theorem New_builds_valid_breaker (o : Option World) (now : Time)
    (cb : CircuitBreaker World) :
  New o now = inr cb ->
  (state cb = Closed /\ counts cb = mkCounts 0 0 0
   /\ generation cb = Add now (GenerationInterval (opt cb)))
  /\ (GenerationInterval (opt cb) <> 0 /\ OpenStateExpiry (opt cb) <> 0
      /\ FailureThreshold (opt cb) <> 0 /\ SuccessThreshold (opt cb) <> 0
      /\ HalfOpenRequestLimit (opt cb) <> 0)
  /\ SuccessThreshold (opt cb) <= HalfOpenRequestLimit (opt cb)
  /\ OnStateChange (opt cb) = OnStateChange o
  /\ shouldTrip (opt cb) = Some (defaultTrip (FailureThreshold (opt cb)))
  /\ New (opt cb) now = inr cb.
Proof.
  assert (Hnz : forall v d, d <> 0 -> orDefault v d <> 0).
  { intros v d Hd. unfold orDefault. destruct (v =? 0) eqn:E; [exact Hd|].
    apply Z.eqb_neq. exact E. }
  assert (Hid : forall v d,
             d <> 0 -> orDefault (orDefault v d) d = orDefault v d).
  { intros v d Hd. unfold orDefault at 1.
    destruct (orDefault v d =? 0) eqn:E; [|reflexivity].
    apply Z.eqb_eq in E. exfalso. exact (Hnz v d Hd E). }
  unfold New. intros H.
  destruct (orDefault (HalfOpenRequestLimit o) DefaultHalfOpenRequestLimit
            <? orDefault (SuccessThreshold o) DefaultSuccessThreshold) eqn:E;
    [discriminate|].
  injection H as <-. simpl.
  split; [repeat split|]. split.
  - repeat split; apply Hnz; discriminate.
  - split; [apply Z.ltb_ge; exact E|]. split; [reflexivity|].
    split; [reflexivity|].
    rewrite !Hid by discriminate. rewrite E. reflexivity.
Qed.

(** ** The counting window *)

Lemma postStartHook_halfopen_expired (now : Time) (cb : CircuitBreaker World)
    (w : World) :
  state cb = HalfOpen ->
  Success (counts cb) < SuccessThreshold (opt cb) ->
  generation cb < now ->
  postStartHook now cb w
  = if HalfOpenRequestLimit (opt cb) <? 0
    then Done (Add now (GenerationInterval (opt cb)),
               Some ErrHalfOpenButExceedRequestLimit)
           (moved now HalfOpen cb) w
    else Done (Add now (GenerationInterval (opt cb)), None)
           (counted (moved now HalfOpen cb)) w.
Proof.
  intros Hs Ht Hn. unfold postStartHook, After. run_monad. rewrite Hs.
  assert (E : (SuccessThreshold (opt cb) <=? Success (counts cb)) = false)
    by (apply Z.leb_gt; lia).
  assert (E' : (generation cb <? now) = true) by (apply Z.ltb_lt; lia).
  rewrite E. simpl. rewrite E'. simpl.
  replace (moveToNextGeneration now cb) with (moved now HalfOpen cb)
    by (rewrite <- moved_eq, <- Hs; destruct cb; reflexivity).
  simpl. destruct (HalfOpenRequestLimit (opt cb) <? 0); reflexivity.
Qed.

(** An admission that finds the counting window expired, and no transition
    due, starts a new window without telling the sink: the state is kept, the
    counts restart from zero, the window expires one generation interval
    later, and the world is untouched whether there is a sink or not.  The
    call itself is then admitted as request 1 of the new window (on a
    half-open breaker, unless the half-open limit is negative). *)
Theorem window_rollover_is_silent (now : Time) (cb : CircuitBreaker World)
    (w : World) :
  generation cb < now ->
  (forall trip,
      state cb = Closed -> shouldTrip (opt cb) = Some trip ->
      trip (counts cb) = false ->
      postStartHook now cb w
      = Done (Add now (GenerationInterval (opt cb)), None)
          (mkCircuitBreaker (opt cb) Closed
             (Add now (GenerationInterval (opt cb))) (mkCounts 1 0 0)) w)
  /\ (state cb = HalfOpen ->
      Success (counts cb) < SuccessThreshold (opt cb) ->
      0 <= HalfOpenRequestLimit (opt cb) ->
      postStartHook now cb w
      = Done (Add now (GenerationInterval (opt cb)), None)
          (mkCircuitBreaker (opt cb) HalfOpen
             (Add now (GenerationInterval (opt cb))) (mkCounts 1 0 0)) w).
Proof.
  intros Hn. split.
  - intros trip Hs Hp Ht.
    rewrite (postStartHook_closed _ _ _ trip Hs Hp), Ht. unfold After.
    apply Z.ltb_lt in Hn. rewrite Hn. reflexivity.
  - intros Hs Ht Hl.
    rewrite (postStartHook_halfopen_expired _ _ _ Hs Ht Hn).
    assert (E : (HalfOpenRequestLimit (opt cb) <? 0) = false)
      by (apply Z.ltb_ge; lia).
    rewrite E. reflexivity.
Qed.

(** ** A healthy operation, a slowly failing one *)

Lemma Do_closed_outcome (resp : Any) (err : option error)
    (now fin fin' : Time) (cb : CircuitBreaker World) (w : World)
    (trip : ShouldTripFunc) :
  state cb = Closed -> shouldTrip (opt cb) = Some trip ->
  trip (counts cb) = false ->
  Do (returning resp err) now fin fin' cb w
  = Done (resp, err)
      (recorded (isNil err)
         (counted (if After now (generation cb)
                   then moved now Closed cb else cb))) w.
Proof.
  intros Hs Hp Ht.
  assert (Hadm : postStartHook now cb w
                 = Done (generation
                           (counted (if After now (generation cb)
                                     then moved now Closed cb else cb)), None)
                     (counted (if After now (generation cb)
                               then moved now Closed cb else cb)) w).
  { rewrite (postStartHook_closed _ _ _ trip Hs Hp), Ht.
    destruct (After now (generation cb)); reflexivity. }
  eapply Do_returned; [exact Hadm | reflexivity |].
  apply preStopHook_no_transition. left.
  destruct (After now (generation cb)); simpl; [|rewrite Hs]; discriminate.
Qed.

(** A closed breaker with the default trip function and a positive failure
    threshold that only sees successes stays closed for ever: every call is
    admitted and returns the operation's result, at whatever times the calls
    come and however many they are, no failure is counted and the sink is
    never called. *)
Theorem successes_never_trip (calls : list (Time * Any))
    (cb : CircuitBreaker World) (w : World) (FT : Z) :
  state cb = Closed ->
  shouldTrip (opt cb) = Some (defaultTrip FT) ->
  0 < FT ->
  Failure (counts cb) = 0 ->
  exists cb',
    DoAll (map succeeding calls) cb w = Done (map success_of calls) cb' w
    /\ state cb' = Closed /\ Failure (counts cb') = 0 /\ opt cb' = opt cb.
Proof.
  revert cb. induction calls as [|[t resp] calls IH]; intros cb Hs Hp HFT HF.
  - exists cb. repeat split; assumption.
  - assert (Ht : defaultTrip FT (counts cb) = false)
      by (unfold defaultTrip; apply Z.leb_gt; lia).
    pose proof (Do_closed_outcome resp None t t t cb w _ Hs Hp Ht) as Hdo.
    set (cb1 := recorded (isNil None)
                  (counted (if After t (generation cb)
                            then moved t Closed cb else cb))) in *.
    assert (H1 : state cb1 = Closed /\ Failure (counts cb1) = 0
                 /\ opt cb1 = opt cb).
    { unfold cb1. destruct (After t (generation cb)); simpl;
        repeat split; assumption. }
    destruct H1 as (Hs1 & HF1 & Ho1).
    destruct (IH cb1 Hs1) as [cb' (Hrun & Hs' & HF' & Ho')];
      [rewrite Ho1; exact Hp | exact HFT | exact HF1 |].
    exists cb'. simpl map.
    rewrite (DoAll_cons (succeeding (t, resp)) _ _ _ _ _ _ Hdo), Hrun.
    repeat split; [exact Hs' | exact HF' | congruence].
Qed.


(** ** Recovery *)

Lemma Do_halfopen_success (resp : Any) (now fin fin' : Time)
    (cb : CircuitBreaker World) (w : World) :
  state cb = HalfOpen ->
  Success (counts cb) < SuccessThreshold (opt cb) ->
  now <= generation cb ->
  Request (counts cb) <= HalfOpenRequestLimit (opt cb) ->
  Do (returning resp None) now fin fin' cb w
  = Done (resp, None) (recorded true (counted cb)) w.
Proof.
  intros Hs Ht Hn Hl. eapply Do_returned.
  - rewrite (postStartHook_halfopen_probing _ _ _ Hs Ht Hn).
    assert (E : (HalfOpenRequestLimit (opt cb) <? Request (counts cb)) = false)
      by (apply Z.ltb_ge; lia).
    rewrite E. reflexivity.
  - reflexivity.
  - change (generation cb) with (generation (counted cb)).
    apply preStopHook_no_transition. right. reflexivity.
Qed.

Lemma DoAll_halfopen_successes (calls : list (Time * Any)) (k : Z)
    (cb : CircuitBreaker World) (w : World) :
  state cb = HalfOpen -> counts cb = mkCounts k k 0 -> 0 <= k ->
  k + Z.of_nat (List.length calls) <= SuccessThreshold (opt cb) ->
  SuccessThreshold (opt cb) <= HalfOpenRequestLimit (opt cb) ->
  SuccessThreshold (opt cb) <= int64_max ->
  Forall (fun c => fst c <= generation cb) calls ->
  DoAll (map succeeding calls) cb w
  = Done (map success_of calls)
      (set_counts (mkCounts (k + Z.of_nat (List.length calls))
                     (k + Z.of_nat (List.length calls)) 0) cb) w.
Proof.
  revert k cb. induction calls as [|[t resp] calls IH];
    intros k cb Hs Hc Hk Hlen Hlim Hmax Hall.
  - simpl. rewrite Z.add_0_r, <- Hc. destruct cb; reflexivity.
  - inversion Hall as [|c' l' Ht Hrest]; subst. simpl in Ht.
    simpl List.length in *. rewrite Nat2Z.inj_succ in *.
    assert (Hdo : Do (returning resp None) t t t cb w
                  = Done (resp, None) (recorded true (counted cb)) w).
    { apply Do_halfopen_success; try assumption; rewrite Hc; simpl; lia. }
    assert (Hc1 : counts (recorded true (counted cb))
                  = mkCounts (k + 1) (k + 1) 0).
    { simpl. rewrite Hc. simpl.
      rewrite incr64_succ by (unfold int64_min, int64_max in *; lia).
      reflexivity. }
    simpl map.
    rewrite (DoAll_cons (succeeding (t, resp)) _ _ _ _ _ _ Hdo).
    rewrite (IH (k + 1) (recorded true (counted cb)) Hs Hc1 ltac:(lia)
               ltac:(simpl; lia) Hlim Hmax Hrest).
    replace (k + 1 + Z.of_nat (List.length calls))
      with (k + Z.succ (Z.of_nat (List.length calls))) by lia.
    reflexivity.
Qed.

(** The way back.  On an open breaker with a sink and a positive success
    threshold not above the half-open limit, the first call past the open
    expiry moves the breaker to half-open and is admitted as a probe; when it
    and the probes after it, made inside the half-open window, succeed until
    the success threshold is reached, the admission of the next call closes
    the breaker.  Every one of these calls returns the operation's result,
    and the sink has received exactly the two events, in this order. *)
Theorem recovery_closes_after_success_threshold
    (first : Time * Any) (rest : list (Time * Any)) (last : Time * Any)
    (cb : CircuitBreaker World) (w : World)
    (notify : StateChangeNotificationFunc World) :
  state cb = Open ->
  OnStateChange (opt cb) = Some notify ->
  generation cb < fst first ->
  1 + Z.of_nat (List.length rest) = SuccessThreshold (opt cb) ->
  SuccessThreshold (opt cb) <= HalfOpenRequestLimit (opt cb) ->
  SuccessThreshold (opt cb) <= int64_max ->
  Forall (fun c => fst c <= Add (fst first) (GenerationInterval (opt cb)))
    rest ->
  DoAll (map succeeding (first :: rest ++ [last])) cb w
  = Done (map success_of (first :: rest ++ [last]))
      (mkCircuitBreaker (opt cb) Closed
         (Add (fst last) (GenerationInterval (opt cb))) (mkCounts 1 1 0))
      (notify (mkEvent (fst last) HalfOpen Closed ReasonReachThreshold)
         (notify (mkEvent (fst first) Open HalfOpen ReasonOpenStateExpired)
            w)).
Proof.
  destruct first as [t1 r1]. destruct last as [tn rn]. simpl fst.
  intros Hs Hf Hexp Hlen Hlim Hmax Hall.
  set (w1 := notify (mkEvent t1 Open HalfOpen ReasonOpenStateExpired) w).
  set (h0 := moved t1 HalfOpen cb).
  assert (Hl0 : (HalfOpenRequestLimit (opt cb) <? 0) = false)
    by (apply Z.ltb_ge; lia).
  assert (Hfirst : Do (returning r1 None) t1 t1 t1 cb w
                   = Done (r1, None) (recorded true (counted h0)) w1).
  { eapply Do_returned.
    - rewrite (postStartHook_open_expired _ _ _ notify Hs Hexp Hf).
      cbv zeta. rewrite Hl0. reflexivity.
    - reflexivity.
    - change (generation (moved t1 HalfOpen cb))
        with (generation (counted h0)).
      apply preStopHook_no_transition. right. reflexivity. }
  set (h1 := recorded true (counted h0)) in *.
  assert (Hrest : DoAll (map succeeding rest) h1 w1
                  = Done (map success_of rest)
                      (set_counts
                         (mkCounts (1 + Z.of_nat (List.length rest))
                            (1 + Z.of_nat (List.length rest)) 0) h1) w1).
  { apply DoAll_halfopen_successes;
      [reflexivity | reflexivity | lia
      | change (opt h1) with (opt cb); lia | exact Hlim | exact Hmax
      | exact Hall]. }
  rewrite Hlen in Hrest.
  set (h2 := set_counts (mkCounts (SuccessThreshold (opt cb))
                           (SuccessThreshold (opt cb)) 0) h1) in *.
  assert (Hlast : Do (returning rn None) tn tn tn h2 w1
                  = Done (rn, None)
                      (mkCircuitBreaker (opt cb) Closed
                         (Add tn (GenerationInterval (opt cb)))
                         (mkCounts 1 1 0))
                      (notify (mkEvent tn HalfOpen Closed ReasonReachThreshold)
                         w1)).
  { eapply Do_returned.
    - apply (postStartHook_halfopen_closes tn h2 w1 notify);
        [reflexivity | simpl; lia | exact Hf].
    - reflexivity.
    - change (Add tn (GenerationInterval (opt h2)))
        with (generation (counted (moved tn Closed h2))).
      rewrite preStopHook_no_transition by (left; discriminate).
      reflexivity. }
  cbn [map]. rewrite (DoAll_cons (succeeding (t1, r1)) _ _ _ _ _ _ Hfirst).
  rewrite !map_app.
  rewrite (DoAll_app _ (map succeeding [(tn, rn)]) _ _ _ _ _ Hrest).
  cbn [map].
  rewrite (DoAll_cons (succeeding (tn, rn)) [] _ _ _ _ _ Hlast).
  reflexivity.
Qed.

(** ** What one step can do *)

Definition told (cb : CircuitBreaker World) (ev : Event) (w : World) : World :=
  match OnStateChange (opt cb) with
  | Some notify => notify ev w
  | None => w
  end.

Lemma postStartHook_cases (now : Time) (cb : CircuitBreaker World)
    (w : World) :
  let r := postStartHook now cb w in
  (world_of r = w
   /\ (breaker_of r = cb
       \/ (breaker_of r = counted cb
           /\ (state cb = HalfOpen ->
               Request (counts cb) <= HalfOpenRequestLimit (opt cb)))
       \/ breaker_of r = moved now (state cb) cb
       \/ breaker_of r = counted (moved now (state cb) cb)))
  \/ (exists s',
         admission_transition (state cb) s'
         /\ (breaker_of r = moved now s' cb
             \/ breaker_of r = counted (moved now s' cb))
         /\ world_of r
            = told cb (mkEvent now (state cb) s'
                         (reason_of (Admit now) (state cb))) w).
Proof.
  destruct cb as [o st g c]. cbv zeta.
  unfold postStartHook, changeState, bind, get, modify, act, ret, panic, After,
    told, admission_transition.
  destruct st; simpl;
    repeat match goal with
      | |- context [if ?b then _ else _] => destruct b eqn:?; simpl
      | |- context [match shouldTrip ?o with _ => _ end] =>
          destruct (shouldTrip o) eqn:?; simpl
      | |- context [match OnStateChange ?o with _ => _ end] =>
          destruct (OnStateChange o) eqn:?; simpl
      end;
    first
      [ left; split; [reflexivity|];
        first [ left; reflexivity
              | right; left; split;
                [ reflexivity
                | first [ intros H; discriminate H
                        | intros _; apply Z.ltb_ge; assumption ] ]
              | right; right; left; reflexivity
              | right; right; right; reflexivity ]
      | right; eexists;
        split;
        [ first [ left; split; reflexivity
                | right; left; split; reflexivity
                | right; right; split; reflexivity ]
        | split;
          [ first [ left; reflexivity | right; reflexivity ]
          | reflexivity ] ] ].
Qed.

Lemma preStopHook_cases (g : Time) (ok : bool) (now : Time)
    (cb : CircuitBreaker World) (w : World) :
  let r := preStopHook g ok now cb w in
  (world_of r = w
   /\ (breaker_of r = cb \/ breaker_of r = recorded ok cb))
  \/ (state cb = HalfOpen
      /\ breaker_of r = moved now Open cb
      /\ world_of r
         = told cb (mkEvent now HalfOpen Open ReasonFailedOnHalfOpenState) w).
Proof.
  cbv zeta. destruct (Z.eq_dec g (generation cb)) as [->|Hg].
  - destruct (state cb) eqn:Hs, ok;
      try (rewrite preStopHook_no_transition
             by (first [left; rewrite Hs; discriminate | right; reflexivity]);
           left; split; [reflexivity | right; reflexivity]).
    right. rewrite (preStopHook_halfopen_failure _ _ _ Hs). unfold told.
    destruct (OnStateChange (opt cb)); repeat split.
  - rewrite preStopHook_stale by exact Hg.
    left. split; [reflexivity | left; reflexivity].
Qed.

Lemma step_cases (op : Op) (s s' : System World) :
  step op s = Some s' ->
  opt (breaker s') = opt (breaker s)
  /\ ((state (breaker s') = state (breaker s) /\ world s' = world s
       /\ op <> ManualReset (time_of op))
      \/ (step_transition op (state (breaker s)) (state (breaker s'))
          /\ world s'
             = told (breaker s)
                 (mkEvent (time_of op) (state (breaker s))
                    (state (breaker s')) (reason_of op (state (breaker s))))
                 (world s))).
Proof.
  destruct s as [cb w fl]. destruct op as [now|g ok now|now]; simpl.
  - intros H. injection H as <-. simpl.
    destruct (postStartHook_cases now cb w) as [[Hw Hb]|(st & Ht & Hb & Hw)].
    + assert (E : opt (breaker_of (postStartHook now cb w)) = opt cb
                  /\ state (breaker_of (postStartHook now cb w)) = state cb).
      { destruct Hb as [-> | [[-> _] | [-> | ->]]]; split; reflexivity. }
      destruct E as [Eo Es]. split; [exact Eo|].
      left. repeat split; [exact Es | exact Hw | discriminate].
    + assert (E : opt (breaker_of (postStartHook now cb w)) = opt cb
                  /\ state (breaker_of (postStartHook now cb w)) = st).
      { destruct Hb as [-> | ->]; split; reflexivity. }
      destruct E as [Eo Es]. split; [exact Eo|].
      right. rewrite Es. split; assumption.
  - destruct (take_token g fl) as [rest|]; [|discriminate].
    intros H. injection H as <-. simpl.
    destruct (preStopHook_cases g ok now cb w) as [[Hw Hb]|(Hs & Hb & Hw)].
    + assert (E : opt (breaker_of (preStopHook g ok now cb w)) = opt cb
                  /\ state (breaker_of (preStopHook g ok now cb w)) = state cb).
      { destruct Hb as [-> | ->]; split;
          first [reflexivity | apply recorded_opt | apply recorded_state]. }
      destruct E as [Eo Es]. split; [exact Eo|].
      left. repeat split; [exact Es | exact Hw | discriminate].
    + rewrite Hb. split; [reflexivity|]. right.
      simpl. rewrite Hw, Hs. split; [split; reflexivity | reflexivity].
  - intros H. injection H as <-. simpl. unfold Reset, told.
    destruct (OnStateChange (opt cb)) as [notify|] eqn:Hf.
    + rewrite (changeState_notifies _ _ _ _ _ notify Hf). simpl.
      split; [reflexivity|]. right. split; reflexivity.
    + rewrite (changeState_nil _ _ _ _ _ Hf). simpl.
      split; [reflexivity|]. right. split; reflexivity.
Qed.

(** No step changes the configuration, and a step does one of two things.
    Either it keeps the state and leaves the world alone.  Or it makes one
    move of the state machine (an admission: closed to open, open to
    half-open, half-open to closed; a completion: half-open to open; a manual
    reset: any state to closed) and calls the sink, when there is one, once,
    with the event that names the clock reading of the step, the state left
    and the state entered, and the reason of that move.  A manual reset always
    does the second. *)
Theorem step_moves_and_tells (op : Op) (s s' : System World) :
  step op s = Some s' ->
  opt (breaker s') = opt (breaker s)
  /\ ((state (breaker s') = state (breaker s) /\ world s' = world s
       /\ op <> ManualReset (time_of op))
      \/ (step_transition op (state (breaker s)) (state (breaker s'))
          /\ world s'
             = told (breaker s)
                 (mkEvent (time_of op) (state (breaker s))
                    (state (breaker s')) (reason_of op (state (breaker s))))
                 (world s))).
Proof. apply step_cases. Qed.

(** ** Bounds that hold under every interleaving *)

Lemma within_step (k : Z) (cb : CircuitBreaker World) :
  within k (counts cb) -> k < int64_max ->
  within (k + 1) (counts cb)
  /\ within (k + 1) (counts (counted cb))
  /\ (forall ok, within (k + 1) (counts (recorded ok cb)))
  /\ (forall now st, within (k + 1) (counts (moved now st cb)))
  /\ (forall now st, within (k + 1) (counts (counted (moved now st cb)))).
Proof.
  unfold within. intros (HR & HS & HF) Hk.
  assert (Hi : forall z, 0 <= z <= k -> incr64 z = z + 1)
    by (intros z Hz; apply incr64_succ;
        unfold int64_min, int64_max in *; lia).
  repeat split; simpl; intros;
    try (destruct ok; simpl); rewrite ?Hi by lia; lia.
Qed.

Lemma step_within (op : Op) (s s' : System World) (k : Z) :
  step op s = Some s' ->
  within k (counts (breaker s)) -> k < int64_max ->
  within (k + 1) (counts (breaker s')).
Proof.
  destruct s as [cb w fl]. intros Hstep Hin Hk. simpl in Hin.
  destruct (within_step k cb Hin Hk) as (H0 & H1 & H2 & H3 & H4).
  destruct op as [now|g ok now|now]; simpl in Hstep.
  - injection Hstep as <-. simpl.
    destruct (postStartHook_cases now cb w)
      as [[_ [-> | [[-> _] | [-> | ->]]]]|(st & _ & [-> | ->] & _)];
      auto.
  - destruct (take_token g fl); [|discriminate].
    injection Hstep as <-. simpl.
    destruct (preStopHook_cases g ok now cb w)
      as [[_ [-> | ->]]|(_ & -> & _)]; auto.
  - injection Hstep as <-. simpl. unfold Reset.
    destruct (OnStateChange (opt cb)) as [notify|] eqn:Hf.
    + rewrite (changeState_notifies _ _ _ _ _ notify Hf). apply H3.
    + rewrite (changeState_nil _ _ _ _ _ Hf). apply H3.
Qed.

(** Whatever the interleaving of admissions, completions and resets, and
    whether tokens coincide or not, no count goes negative and none grows by
    more than one per step: counts that start between 0 and [k] lie between 0
    and [k] plus the number of steps, as long as that stays an [int64]. *)
Theorem counts_stay_in_range (ops : list Op) (s s' : System World) (k : Z) :
  run ops s = Some s' ->
  within k (counts (breaker s)) ->
  k + Z.of_nat (List.length ops) <= int64_max ->
  within (k + Z.of_nat (List.length ops)) (counts (breaker s')).
Proof.
  revert s k. induction ops as [|op ops IH]; intros s k Hrun Hin Hk.
  - injection Hrun as <-. simpl. rewrite Z.add_0_r. exact Hin.
  - simpl in Hrun. destruct (step op s) as [s1|] eqn:Hstep; [|discriminate].
    simpl List.length in *. rewrite Nat2Z.inj_succ in *.
    replace (k + Z.succ (Z.of_nat (List.length ops)))
      with (k + 1 + Z.of_nat (List.length ops)) by lia.
    apply (IH s1); [exact Hrun | | lia].
    apply (step_within op s s1 k Hstep Hin). lia.
Qed.

Lemma step_half_open_bound (op : Op) (s s' : System World) (k : Z) :
  step op s = Some s' ->
  within k (counts (breaker s)) -> k < int64_max ->
  0 <= HalfOpenRequestLimit (opt (breaker s)) ->
  (state (breaker s) = HalfOpen ->
   Request (counts (breaker s)) <= HalfOpenRequestLimit (opt (breaker s)) + 1) ->
  state (breaker s') = HalfOpen ->
  Request (counts (breaker s')) <= HalfOpenRequestLimit (opt (breaker s)) + 1.
Proof.
  destruct s as [cb w fl]. simpl. intros Hstep (HR & _ & _) Hk Hl Hb.
  assert (Hi : incr64 (Request (counts cb)) = Request (counts cb) + 1)
    by (apply incr64_succ; unfold int64_min, int64_max in *; lia).
  destruct op as [now|g ok now|now]; simpl in Hstep.
  - injection Hstep as <-. simpl.
    destruct (postStartHook_cases now cb w)
      as [[_ [-> | [[-> Hadm] | [-> | ->]]]]|(st & _ & [-> | ->] & _)];
      simpl; intros Hs; rewrite ?Hi; try lia.
    + apply Hb. exact Hs.
    + specialize (Hadm Hs). lia.
    + change (incr64 0) with 1. lia.
    + change (incr64 0) with 1. lia.
  - destruct (take_token g fl); [|discriminate].
    injection Hstep as <-. simpl.
    destruct (preStopHook_cases g ok now cb w)
      as [[_ [-> | ->]]|(_ & -> & _)]; simpl; intros Hs.
    + apply Hb. exact Hs.
    + rewrite recorded_state in Hs.
      destruct ok; simpl; apply Hb; exact Hs.
    + discriminate.
  - injection Hstep as <-. simpl. unfold Reset.
    destruct (OnStateChange (opt cb)) as [notify|] eqn:Hf.
    + rewrite (changeState_notifies _ _ _ _ _ notify Hf). discriminate.
    + rewrite (changeState_nil _ _ _ _ _ Hf). discriminate.
Qed.

(** Under every interleaving, a half-open breaker with a non-negative limit
    has counted at most the limit plus one requests in its generation: the
    strict comparison of the admission check lets exactly one probe past the
    limit, never two. *)
Theorem half_open_requests_bounded (ops : list Op) (s s' : System World)
    (k : Z) :
  run ops s = Some s' ->
  within k (counts (breaker s)) ->
  k + Z.of_nat (List.length ops) <= int64_max ->
  0 <= HalfOpenRequestLimit (opt (breaker s)) ->
  (state (breaker s) = HalfOpen ->
   Request (counts (breaker s)) <= HalfOpenRequestLimit (opt (breaker s)) + 1) ->
  state (breaker s') = HalfOpen ->
  Request (counts (breaker s')) <= HalfOpenRequestLimit (opt (breaker s)) + 1.
Proof.
  revert s k. induction ops as [|op ops IH]; intros s k Hrun Hin Hk Hl Hb.
  - injection Hrun as <-. exact Hb.
  - simpl in Hrun. destruct (step op s) as [s1|] eqn:Hstep; [|discriminate].
    simpl List.length in Hk. rewrite Nat2Z.inj_succ in Hk.
    destruct (step_cases op s s1 Hstep) as [Ho _].
    rewrite <- Ho. apply (IH s1 (k + 1)).
    + exact Hrun.
    + apply (step_within op s s1 k Hstep Hin). lia.
    + lia.
    + rewrite Ho. exact Hl.
    + rewrite Ho. apply (step_half_open_bound op s s1 k Hstep Hin); try lia.
      exact Hb.
Qed.

Lemma take_token_incl (g : Time) (l rest : list Time) :
  take_token g l = Some rest -> incl rest l.
Proof.
  revert rest. induction l as [|h t IH]; intros rest H; simpl in H.
  - discriminate.
  - destruct (h =? g).
    + injection H as <-. apply incl_tl, incl_refl.
    + destruct (take_token g t) as [t'|]; [|discriminate].
      injection H as <-. apply incl_cons.
      * left. reflexivity.
      * apply incl_tl. apply IH. reflexivity.
Qed.

(** An open breaker holds under concurrency: until the clock passes the
    expiry, no interleaving of admission attempts and of completions of calls
    admitted earlier moves it, admits a call, changes its generation or its
    request count, or reaches the sink.  Only a manual reset or an admission
    past the expiry takes it out of the open state. *)
Theorem open_holds_under_interleaving (ops : list Op) (s s' : System World) :
  state (breaker s) = Open ->
  Forall (before_expiry (generation (breaker s))) ops ->
  run ops s = Some s' ->
  state (breaker s') = Open
  /\ generation (breaker s') = generation (breaker s)
  /\ opt (breaker s') = opt (breaker s)
  /\ Request (counts (breaker s')) = Request (counts (breaker s))
  /\ world s' = world s
  /\ incl (inflight s') (inflight s).
Proof.
  intros Hs Hall. revert s Hs Hall.
  induction ops as [|op ops IH]; intros s Hs Hall Hrun.
  - injection Hrun as <-.
    repeat (split; [first [assumption | reflexivity]|]). apply incl_refl.
  - inversion Hall as [|op' ops' Hop Hrest]; subst.
    simpl in Hrun. destruct (step op s) as [s1|] eqn:Hstep; [|discriminate].
    assert (H1 : state (breaker s1) = Open
                 /\ generation (breaker s1) = generation (breaker s)
                 /\ opt (breaker s1) = opt (breaker s)
                 /\ Request (counts (breaker s1))
                    = Request (counts (breaker s))
                 /\ world s1 = world s
                 /\ incl (inflight s1) (inflight s)).
    { destruct s as [cb w fl]. simpl in *.
      destruct op as [now|g ok now|now]; simpl in Hstep, Hop.
      - rewrite (postStartHook_open_waiting now cb w Hs Hop) in Hstep.
        injection Hstep as <-. simpl.
        repeat (split; [first [assumption | reflexivity]|]). apply incl_refl.
      - destruct (take_token g fl) as [rest|] eqn:Htok; [|discriminate].
        injection Hstep as <-. simpl.
        destruct (preStopHook_cases g ok now cb w)
          as [[Hw [-> | ->]]|(Hh & _)].
        + repeat (split; [first [assumption | reflexivity]|]).
          exact (take_token_incl _ _ _ Htok).
        + rewrite recorded_state, recorded_opt.
          repeat (split; [first [assumption | reflexivity
                                | destruct ok; reflexivity]|]).
          exact (take_token_incl _ _ _ Htok).
        + rewrite Hs in Hh. discriminate.
      - contradiction. }
    destruct H1 as (Hs1 & Hg1 & Ho1 & Hr1 & Hw1 & Hi1).
    destruct (IH s1 Hs1) as (Hs' & Hg' & Ho' & Hr' & Hw' & Hi').
    + rewrite Hg1. exact Hrest.
    + exact Hrun.
    + repeat (split; [congruence|]).
      intros x Hx. apply Hi1, Hi'. exact Hx.
Qed.

(** The token an admission hands out, to an admitted call as to a rejected
    one, is the expiry of the generation the breaker is in afterwards; and
    when the two durations of the configuration are not negative, that expiry
    is not before the clock reading of the admission: no call is given a
    token that has already expired. *)
Theorem admission_token_is_current (now : Time) (cb cb' : CircuitBreaker World)
    (w w' : World) (g : Time) (e : option error) :
  postStartHook now cb w = Done (g, e) cb' w' ->
  g = generation cb'
  /\ (0 <= GenerationInterval (opt cb) -> 0 <= OpenStateExpiry (opt cb) ->
      now <= g).
Proof.
  destruct cb as [o st g0 c].
  unfold postStartHook, changeState, bind, get, modify, act, ret, panic, After,
    Add.
  destruct st; simpl;
    repeat match goal with
      | |- context [if ?b then _ else _] => destruct b eqn:?; simpl
      | |- context [match shouldTrip ?o with _ => _ end] =>
          destruct (shouldTrip o) eqn:?; simpl
      | |- context [match OnStateChange ?o with _ => _ end] =>
          destruct (OnStateChange o) eqn:?; simpl
      end;
    intros H; try discriminate H; injection H as <- <- <- <-;
    (split; [reflexivity|]); simpl; intros HG HO;
    repeat match goal with
      | E : (_ <? _) = false |- _ => apply Z.ltb_ge in E
      | E : (_ <? _) = true |- _ => apply Z.ltb_lt in E
      end;
    unfold moveToNextGeneration, Add in *; simpl in *; lia.
Qed.

End Properties.

(** ** Printing the counts *)

Lemma comma_free_uint (d : Decimal.uint) :
  comma_free (DecimalString.NilEmpty.string_of_uint d) = true.
Proof. induction d; simpl; auto. Qed.

Lemma comma_free_itoa (z : Z) : comma_free (itoa z) = true.
Proof.
  unfold itoa. destruct z as [|p|p]; simpl.
  - reflexivity.
  - destruct (Pos.to_uint p) eqn:E; try reflexivity;
      rewrite <- E; unfold DecimalString.NilZero.string_of_uint; rewrite E;
      rewrite <- E; apply comma_free_uint.
  - destruct (Pos.to_uint p) eqn:E; try reflexivity;
      rewrite <- E; unfold DecimalString.NilZero.string_of_uint; rewrite E;
      rewrite <- E; apply comma_free_uint.
Qed.

Lemma itoa_inj (z z' : Z) : itoa z = itoa z' -> z = z'.
Proof.
  unfold itoa. intros H. apply DecimalZ.to_int_inj.
  assert (Hnn : forall x, Z.to_int x <> Decimal.Pos Decimal.Nil
                         /\ Z.to_int x <> Decimal.Neg Decimal.Nil).
  { intros [|p|p]; simpl; split; try discriminate;
      intros [= E]; exact (DecimalPos.Unsigned.to_uint_nonnil p E). }
  assert (E : DecimalString.NilZero.int_of_string (itoa z)
              = DecimalString.NilZero.int_of_string (itoa z'))
    by (unfold itoa; rewrite H; reflexivity).
  unfold itoa in E. rewrite !DecimalString.NilZero.isi in E by apply Hnn.
  injection E as E. exact E.
Qed.

Lemma split_at_comma (s1 s2 r1 r2 : string) :
  comma_free s1 = true -> comma_free s2 = true ->
  (s1 ++ String "," r1)%string = (s2 ++ String "," r2)%string ->
  s1 = s2 /\ r1 = r2.
Proof.
  revert s2. induction s1 as [|a s1 IH]; intros [|b s2] H1 H2 H; simpl in *.
  - injection H as <-. split; reflexivity.
  - injection H as <- _. rewrite Ascii.eqb_refl in H2. discriminate.
  - injection H as -> _. rewrite Ascii.eqb_refl in H1. discriminate.
  - injection H as <- H.
    apply andb_true_iff in H1. apply andb_true_iff in H2.
    destruct (IH s2 (proj2 H1) (proj2 H2) H) as [-> ->].
    split; reflexivity.
Qed.

(** The line [String] prints determines the counts: two counts that print
    the same are the same, so nothing is lost in a log of these lines. *)
Theorem Counts_String_injective (c c' : Counts) :
  Counts_String c = Counts_String c' -> c = c'.
Proof.
  destruct c as [r s f], c' as [r' s' f']. unfold Counts_String. simpl.
  intros H. injection H as H.
  destruct (split_at_comma _ _ _ _ (comma_free_itoa r) (comma_free_itoa r') H)
    as [Hr H1].
  simpl in H1. injection H1 as H1.
  destruct (split_at_comma _ _ _ _ (comma_free_itoa s) (comma_free_itoa s') H1)
    as [Hs H2].
  simpl in H2. injection H2 as H2.
  apply itoa_inj in Hr, Hs, H2. subst. reflexivity.
Qed.

(** ** The log is a history *)

Lemma history_snoc (s0 a : State) (log : list Event) (ev : Event) :
  history s0 log a -> From ev = a -> history s0 (log ++ [ev]) (To ev).
Proof.
  revert s0. induction log as [|e log IH]; intros s0 H Hev; simpl in *.
  - subst. split; reflexivity.
  - destruct H as [H1 H2]. split; [exact H1 | apply IH; assumption].
Qed.

(** With the sink that appends to the log, the log is at every moment the
    history of the breaker, whatever the interleaving of admissions,
    completions and resets: each event leaves the state the event before it
    entered, and the last event entered the state the breaker is in. *)
Theorem log_is_a_history (ops : list Op) (s s' : System Log) (s0 : State) :
  OnStateChange (opt (breaker s)) = Some onChange ->
  history s0 (world s) (state (breaker s)) ->
  run ops s = Some s' ->
  history s0 (world s') (state (breaker s')).
Proof.
  revert s. induction ops as [|op ops IH]; intros s Hf Hh Hrun.
  - injection Hrun as <-. exact Hh.
  - simpl in Hrun. destruct (step op s) as [s1|] eqn:Hstep; [|discriminate].
    destruct (step_cases Log op s s1 Hstep)
      as [Ho [(Hs & Hw & _)|(_ & Hw)]].
    + apply (IH s1); [rewrite Ho; exact Hf | | exact Hrun].
      rewrite Hs, Hw. exact Hh.
    + apply (IH s1); [rewrite Ho; exact Hf | | exact Hrun].
      rewrite Hw. unfold told. rewrite Hf. unfold onChange.
      apply (history_snoc s0 (state (breaker s)) (world s)
               (mkEvent (time_of op) (state (breaker s))
                  (state (breaker s1)) (reason_of op (state (breaker s)))));
        [exact Hh | reflexivity].
Qed.

(** * The demonstration program *)

Section ExampleProgram.

Import Example.

Variable timeString : Time -> string.
Variable clock : nat -> Time * Time * Time.

Local Abbreviation onChange := (Example.onChange timeString).
Local Abbreviation breakerAt := (Example.breakerAt timeString).
Local Abbreviation init := (Example.init timeString).
Local Abbreviation doFrom := (Example.doFrom clock).
Local Abbreviation do := (Example.do clock).
Local Abbreviation main := (Example.main clock).
Local Abbreviation admitted := (Example.admitted clock).
Local Abbreviation completed := (Example.completed clock).
Local Abbreviation schedule := (Example.schedule clock).
Local Abbreviation transcript := (Example.transcript timeString clock).

Lemma init_builds (t0 : Time) :
  init t0 = inr (breakerAt Closed (Add t0 (2 * Second)) 0 0 0).
Proof. reflexivity. Qed.

(** One iteration of [do] whose call of [Do] does not panic. *)
Lemma doFrom_step (success : bool) (i : Z) (times made : nat)
    (cb cb1 : CircuitBreaker Stdout) (w w1 : Stdout)
    (r : Any * option error) :
  Do (handler success i) (fst (fst (clock made))) (snd (fst (clock made)))
    (snd (clock made)) cb w = Done r cb1 w1 ->
  doFrom success i (S times) made cb w
  = doFrom success (i + 1) times (S made) cb1 (printed i cb1 r w1).
Proof.
  intros H. simpl Example.doFrom. unfold bind at 1. rewrite H.
  unfold printed, bind, get, act, ret. destruct (snd r); reflexivity.
Qed.

Lemma doFrom_done (success : bool) (i : Z) (made : nat)
    (cb : CircuitBreaker Stdout) (w : Stdout) :
  doFrom success i 0 made cb w = Done tt cb w.
Proof. reflexivity. Qed.

Lemma bind_done {A B : Type} (m : M Stdout A) (k : A -> M Stdout B)
    (cb cb1 : CircuitBreaker Stdout) (w w1 : Stdout) (a : A) :
  m cb w = Done a cb1 w1 -> bind m k cb w = k a cb1 w1.
Proof. intros H. unfold bind. rewrite H. reflexivity. Qed.

(** The calls the program makes, by the state they find the breaker in. *)

Lemma example_closed_failure (i : Z) (t c d g : Time) (r s f r' f' : Z)
    (w : Stdout) :
  t <= g -> 0 <= f < 3 -> 0 <= r < int64_max ->
  r' = r + 1 -> f' = f + 1 ->
  Do (handler false i) t c d (breakerAt Closed g r s f) w
  = Done (Nil, Some (manualErrorTimes i)) (breakerAt Closed g r' s f') w.
Proof.
  intros Ht Hf Hr -> ->.
  change (handler false i)
    with (returning (World:=Stdout) Nil (Some (manualErrorTimes i))).
  rewrite (Do_closed_outcome _ Nil (Some (manualErrorTimes i)) t c d
             (breakerAt Closed g r s f) w (defaultTrip 3) eq_refl eq_refl)
    by (unfold defaultTrip; apply Z.leb_gt; simpl; lia).
  assert (E : After t (generation (breakerAt Closed g r s f)) = false)
    by (unfold After; apply Z.ltb_ge; exact Ht).
  rewrite E. unfold Example.breakerAt, recorded, counted. simpl.
  rewrite !incr64_succ by (unfold int64_min, int64_max in *; lia).
  reflexivity.
Qed.

Lemma example_closed_trip (h : HandleFunc Stdout) (t c d g : Time)
    (r s f : Z) (w : Stdout) :
  3 <= f ->
  Do h t c d (breakerAt Closed g r s f) w
  = Done (Nil, Some ErrIsOpen) (breakerAt Open (Add t (2 * Second)) 0 0 0)
      (onChange (mkEvent t Closed Open ReasonReachThreshold) w).
Proof.
  intros Hf. apply Do_rejected with (g := Add t (2 * Second)).
  rewrite (postStartHook_closed _ t (breakerAt Closed g r s f) w
             (defaultTrip 3) eq_refl eq_refl).
  assert (E : defaultTrip 3 (counts (breakerAt Closed g r s f)) = true)
    by (unfold defaultTrip; apply Z.leb_le; exact Hf).
  rewrite E. reflexivity.
Qed.

Lemma example_open_waiting (h : HandleFunc Stdout) (t c d g : Time)
    (r s f : Z) (w : Stdout) :
  t <= g ->
  Do h t c d (breakerAt Open g r s f) w
  = Done (Nil, Some ErrIsOpen) (breakerAt Open g r s f) w.
Proof. intros Ht. apply Do_open_waiting; [reflexivity | exact Ht]. Qed.

Lemma example_open_expired (i : Z) (t c d g : Time) (r s f : Z)
    (w : Stdout) :
  g < t ->
  Do (handler true i) t c d (breakerAt Open g r s f) w
  = Done (Nil, None) (breakerAt HalfOpen (Add t (2 * Second)) 1 1 0)
      (onChange (mkEvent t Open HalfOpen ReasonOpenStateExpired) w).
Proof.
  intros Ht.
  change (handler true i) with (returning (World:=Stdout) Nil None).
  eapply Do_returned.
  - rewrite (postStartHook_open_expired _ t (breakerAt Open g r s f) w
               onChange eq_refl Ht eq_refl).
    reflexivity.
  - reflexivity.
  - apply (preStopHook_no_transition _ true c
             (counted (moved t HalfOpen (breakerAt Open g r s f)))).
    right. reflexivity.
Qed.

Lemma example_halfopen_success (i : Z) (t c d g : Time) (r s f r' s' : Z)
    (w : Stdout) :
  t <= g -> 0 <= s < 5 -> 0 <= r <= 10 ->
  r' = r + 1 -> s' = s + 1 ->
  Do (handler true i) t c d (breakerAt HalfOpen g r s f) w
  = Done (Nil, None) (breakerAt HalfOpen g r' s' f) w.
Proof.
  intros Ht Hs Hr -> ->.
  change (handler true i) with (returning (World:=Stdout) Nil None).
  rewrite Do_halfopen_success; try reflexivity; simpl; try lia.
  unfold Example.breakerAt, recorded, counted. simpl.
  rewrite !incr64_succ by (unfold int64_min, int64_max in *; lia).
  reflexivity.
Qed.

Lemma example_halfopen_failure (i : Z) (t c d g : Time) (r s f : Z)
    (w : Stdout) :
  t <= g -> s < 5 -> r <= 10 ->
  Do (handler false i) t c d (breakerAt HalfOpen g r s f) w
  = Done (Nil, Some (manualErrorTimes i))
      (breakerAt Open (Add c (2 * Second)) 0 0 0)
      (onChange (mkEvent c HalfOpen Open ReasonFailedOnHalfOpenState) w).
Proof.
  intros Ht Hs Hr.
  change (handler false i)
    with (returning (World:=Stdout) Nil (Some (manualErrorTimes i))).
  eapply Do_returned.
  - rewrite (postStartHook_halfopen_probing _ t (breakerAt HalfOpen g r s f) w
               eq_refl) by (simpl; lia).
    assert (E : (HalfOpenRequestLimit (opt (breakerAt HalfOpen g r s f))
                 <? Request (counts (breakerAt HalfOpen g r s f))) = false)
      by (apply Z.ltb_ge; simpl; lia).
    rewrite E. reflexivity.
  - reflexivity.
  - change (generation (breakerAt HalfOpen g r s f))
      with (generation (counted (breakerAt HalfOpen g r s f))).
    change (isNil (Some (manualErrorTimes i))) with false.
    rewrite (preStopHook_halfopen_failure _ c
               (counted (breakerAt HalfOpen g r s f)) w eq_refl).
    reflexivity.
Qed.

Lemma example_halfopen_closes (i : Z) (t c d g : Time) (r s f : Z)
    (w : Stdout) :
  5 <= s ->
  Do (handler true i) t c d (breakerAt HalfOpen g r s f) w
  = Done (Nil, None) (breakerAt Closed (Add t (2 * Second)) 1 1 0)
      (onChange (mkEvent t HalfOpen Closed ReasonReachThreshold) w).
Proof.
  intros Hs.
  change (handler true i) with (returning (World:=Stdout) Nil None).
  eapply Do_returned.
  - apply (postStartHook_halfopen_closes _ t (breakerAt HalfOpen g r s f) w
             onChange eq_refl Hs eq_refl).
  - reflexivity.
  - apply (preStopHook_no_transition _ true c
             (counted (moved t Closed (breakerAt HalfOpen g r s f)))).
    right. reflexivity.
Qed.

Ltac on_time :=
  lazymatch goal with
  | |- @eq Z _ _ => cbv; reflexivity
  | |- _ =>
      cbv [Add Example.admitted Example.completed Second Nanosecond
           int64_max] in *; lia
  end.

Ltac call L :=
  erewrite doFrom_step by (eapply L; on_time).

(** The demonstration program, end to end.  [init] builds a closed breaker, and on every run on schedule, whatever the clock readings
    otherwise are and however a time prints, [main] ends without a panic
    having written exactly [transcript]: three failures counted, the trip
    announced at the fourth call and the calls 4 to 10 rejected with
    "breaker is open"; after the sleep two probes counted in the half-open
    state, the failing probe reopening the breaker at its completion, the two
    calls after it rejected; after the second sleep five probes counted, and
    the breaker closed at the admission of the sixth call, which is counted in
    the new generation.  The breaker is left closed with one request and one
    success. *)
Theorem main_transcript (t0 : Time) :
  schedule t0 ->
  exists bk,
    init t0 = inr bk
    /\ main bk []
       = Done tt (breakerAt Closed (Add (admitted 20) (2 * Second)) 1 1 0)
           transcript.
Proof.
  intros H. unfold Example.schedule in H. decompose [and] H. clear H.
  exists (breakerAt Closed (Add t0 (2 * Second)) 0 0 0).
  split; [apply init_builds|].
  unfold Example.main, Example.do.
  erewrite bind_done.
  2:{ call example_closed_failure. call example_closed_failure.
      call example_closed_failure.
      call example_closed_trip.
      call example_open_waiting. call example_open_waiting.
      call example_open_waiting. call example_open_waiting.
      call example_open_waiting. call example_open_waiting.
      apply doFrom_done. }
  erewrite bind_done by reflexivity.
  erewrite bind_done.
  2:{ call example_open_expired. call example_halfopen_success.
      apply doFrom_done. }
  erewrite bind_done.
  2:{ call example_halfopen_failure. apply doFrom_done. }
  erewrite bind_done.
  2:{ call example_open_waiting. call example_open_waiting.
      apply doFrom_done. }
  erewrite bind_done by reflexivity.
  call example_open_expired.
  call example_halfopen_success. call example_halfopen_success.
  call example_halfopen_success. call example_halfopen_success.
  call example_halfopen_closes.
  rewrite doFrom_done. reflexivity.
Qed.

End ExampleProgram.

Lemma exampleBreaker_New : New exampleOption 0 = inr exampleBreaker.
Proof. reflexivity. Qed.

Lemma nilBreaker_New : New nilOption 0 = inr nilBreaker.
Proof. reflexivity. Qed.

(** ** Witnesses and counterexamples *)

(** The example's first four calls: three failures leave the breaker closed
    and the log empty; the fourth call is the one that opens it. *)
Lemma threshold_trips_at_next_admission_witness :
  (exists cb',
      DoAll (map failing threeFailures) exampleBreaker []
      = Done (map failure_of threeFailures) cb' []
      /\ state cb' = Closed
      /\ Failure (counts cb') = FailureThreshold (opt exampleBreaker))
  /\ DoAll (map failing threeFailures
        ++ mkCall (returning Nil None) 4 4 4
        :: [mkCall (returning Nil None) 5 5 5;
            mkCall (returning Nil None) (4 + 2 * Second) 6 6])
       exampleBreaker []
     = Done
         (map failure_of threeFailures
          ++ [(Nil, Some ErrIsOpen); (Nil, Some ErrIsOpen);
              (Nil, Some ErrIsOpen)])
         (moved 4 Open exampleBreaker)
         [mkEvent 4 Closed Open ReasonReachThreshold].
Proof.
  apply (threshold_trips_at_next_admission Log threeFailures
           (mkCall (returning Nil None) 4 4 4)
           [mkCall (returning Nil None) 5 5 5;
            mkCall (returning Nil None) (4 + 2 * Second) 6 6]
           exampleBreaker [] onChange).
  - reflexivity.
  - reflexivity.
  - reflexivity.
  - simpl. lia.
  - reflexivity.
  - vm_compute. discriminate.
  - repeat constructor; vm_compute; discriminate.
  - repeat constructor; vm_compute; discriminate.
Defined.

(** C1 as stated fails: when the call that records the third failure
    (threshold 3) has returned, the breaker is closed and the sink has
    received nothing. *)
Lemma third_failure_leaves_breaker_closed :
  exists cb3,
    DoAll (map failing threeFailures) exampleBreaker []
    = Done (map failure_of threeFailures) cb3 []
    /\ FailureThreshold (opt cb3) = 3
    /\ counts cb3 = mkCounts 3 0 3
    /\ state cb3 = Closed.
Proof. eexists. repeat split. Qed.

Lemma open_rejects_until_expiry_witness :
  Do (returning (Int 1) None) (4 + 2 * Second) 5 5
    openBreaker []
  = Done (Nil, Some ErrIsOpen) openBreaker []
  /\ postStartHook (5 + 2 * Second) openBreaker []
     = Done (5 + 4 * Second, None)
         (halfOpenBreaker (mkCounts 1 0 0))
         [mkEvent (5 + 2 * Second) Open HalfOpen ReasonOpenStateExpired].
Proof.
  destruct (open_rejects_until_expiry Log openBreaker [] eq_refl)
    as (Hwait & _ & Hexp).
  split.
  - apply Hwait. vm_compute. discriminate.
  - destruct (Hexp onChange (5 + 2 * Second) eq_refl eq_refl)
      as (_ & _ & Hadm).
    exact Hadm.
Defined.

Lemma stale_outcome_discarded_witness :
  preStopHook 7 true 9 exampleBreaker []
  = Done tt exampleBreaker [].
Proof.
  apply (stale_outcome_discarded Log 7 true 9 exampleBreaker []).
  vm_compute. discriminate.
Defined.

Lemma half_open_failure_reopens_witness :
  exists cb',
    preStopHook (5 + 4 * Second) false (6 + 2 * Second)
      (halfOpenBreaker (mkCounts 3 2 0)) []
    = Done tt cb'
        [mkEvent (6 + 2 * Second) HalfOpen Open ReasonFailedOnHalfOpenState]
    /\ state cb' = Open
    /\ counts cb' = mkCounts 0 0 0
    /\ generation cb' = 6 + 4 * Second
    /\ opt cb' = opt exampleBreaker.
Proof.
  exact (half_open_failure_reopens Log (6 + 2 * Second)
           (halfOpenBreaker (mkCounts 3 2 0)) [] onChange eq_refl eq_refl).
Defined.


Lemma nil_sink_panics_on_every_transition_witness :
  Reset 5 nilBreaker []
  = Panicked NilFuncCall (moved 5 Closed nilBreaker) []
  /\ postStartHook 4
       (set_counts (mkCounts 3 0 3) nilBreaker) []
     = Panicked NilFuncCall
         (moved 4 Open (set_counts (mkCounts 3 0 3) nilBreaker)) [].
Proof.
  split.
  - exact (proj1 (proj2 (nil_sink_panics_on_every_transition Log
                           nilBreaker [] eq_refl)) 5).
  - exact (proj1 (proj2 (proj2
             (nil_sink_panics_on_every_transition Log
                (set_counts (mkCounts 3 0 3) nilBreaker) [] eq_refl)))
             4 (defaultTrip 3) eq_refl eq_refl eq_refl).
Defined.

(** C3 as stated fails: a configuration that supplies the predicate "always
    trip" yields a breaker that admits the first call and stays closed,
    although the supplied predicate holds of its counts. *)
Lemma supplied_predicate_is_discarded :
  let supplied : ShouldTripFunc := fun _ => true in
  let o := mkOption (2 * Second) (2 * Second) 3 5 10 (Some onChange)
             (Some supplied) in
  exists cb,
    New o 0 = inr cb
    /\ supplied (counts cb) = true
    /\ postStartHook 1 cb [] = Done (generation cb, None)
                                              (counted cb) []
    /\ state (counted cb) = Closed.
Proof. cbv zeta. eexists. repeat split. Qed.

Lemma closed_trips_on_installed_predicate_witness :
  (FailureThreshold (opt exampleBreaker) = 3
   /\ shouldTrip (opt exampleBreaker) = Some (fun c => 3 <=? Failure c))
  /\ (state (breaker_of
               (postStartHook 4
                  (set_counts (mkCounts 3 0 3) exampleBreaker) []))
      = Open
      <-> defaultTrip 3 (mkCounts 3 0 3) = true).
Proof.
  destruct (closed_trips_on_installed_predicate Log exampleOption 0
              exampleBreaker eq_refl) as [Hnew Htrip].
  split.
  - exact Hnew.
  - exact (proj1 (Htrip (set_counts (mkCounts 3 0 3) exampleBreaker) [] 4
                    (defaultTrip 3) eq_refl eq_refl)).
Defined.



(** ** Where the code departs from the claims *)

(** C2, the code at the failing input.  With the half-open limit at 10 and ten
    probes admitted in the generation, the eleventh call is admitted too and
    its operation runs; only the twelfth is rejected. *)
Theorem eleventh_probe_admitted :
  let log := [mkEvent 4 Closed Open ReasonReachThreshold;
              mkEvent (5 + 2 * Second) Open HalfOpen ReasonOpenStateExpired] in
  let s10 := mkSystem (halfOpenBreaker (mkCounts 10 0 0)) log
               (repeat (5 + 4 * Second) 10) in
  run tenProbes (mkSystem exampleBreaker [] []) = Some s10
  /\ state (breaker s10) = HalfOpen
  /\ HalfOpenRequestLimit (opt (breaker s10)) = 10
  /\ Request (counts (breaker s10)) = 10
  /\ List.length (inflight s10) = 10%nat
  /\ Do (returning (Int 11) None)
       (15 + 2 * Second) (16 + 2 * Second) (16 + 2 * Second)
       (breaker s10) (world s10)
     = Done (Int 11, None) (halfOpenBreaker (mkCounts 11 1 0)) log
  /\ postStartHook (17 + 2 * Second)
       (halfOpenBreaker (mkCounts 11 1 0)) log
     = Done (5 + 4 * Second, Some ErrHalfOpenButExceedRequestLimit)
         (halfOpenBreaker (mkCounts 11 1 0)) log.
Proof. cbv zeta. repeat split; vm_compute; reflexivity. Qed.

(** C10, the code at the failing input.  The success of the call admitted in
    the closed generation is counted in the open generation, which admitted no
    request: the breaker ends open with one success against zero requests. *)
Theorem stale_success_counted_after_trip :
  let s := mkSystem
             (mkCircuitBreaker (opt longWindowBreaker) Open (10 * Second)
                (mkCounts 0 1 0))
             [mkEvent (9 * Second) Closed Open ReasonReachThreshold] [] in
  New longWindowOption 0 = inr longWindowBreaker
  /\ run slowCall (mkSystem longWindowBreaker [] []) = Some s
  /\ state (breaker s) = Open
  /\ Request (counts (breaker s))
     < Success (counts (breaker s)) + Failure (counts (breaker s)).
Proof. cbv zeta. repeat split; vm_compute; reflexivity. Qed.

(** ** Witnesses of the further properties *)

Lemma Reset_closes_witness :
  exists cb',
    Reset 9 openBreaker []
    = Done tt cb' [mkEvent 9 Open Closed ReasonManuallyReset]
    /\ state cb' = Closed
    /\ counts cb' = mkCounts 0 0 0
    /\ generation cb' = 9 + 2 * Second
    /\ opt cb' = opt openBreaker.
Proof.
  exact (Reset_closes Log 9 openBreaker [] onChange eq_refl).
Defined.

Lemma half_open_rejects_above_limit_witness :
  Do (returning (Int 12) None) (17 + 2 * Second) (18 + 2 * Second)
    (18 + 2 * Second) (halfOpenBreaker (mkCounts 11 1 0)) []
  = Done (Nil, Some ErrHalfOpenButExceedRequestLimit)
      (halfOpenBreaker (mkCounts 11 1 0)) [].
Proof.
  apply (half_open_rejects_above_limit Log (returning (Int 12) None)
           (17 + 2 * Second) (18 + 2 * Second) (18 + 2 * Second)
           (halfOpenBreaker (mkCounts 11 1 0)) []);
    vm_compute; first [reflexivity | discriminate].
Defined.


Example Counts_String_example :
  Counts_String (mkCounts 3 0 3) = "request: 3, success: 0, failure: 3"
  /\ Counts_String (mkCounts 0 (-5) 120)
     = "request: 0, success: -5, failure: 120".
Proof. split; reflexivity. Qed.

Lemma New_builds_valid_breaker_witness :
  (state exampleBreaker = Closed /\ counts exampleBreaker = mkCounts 0 0 0
   /\ generation exampleBreaker = 0 + 2 * Second)
  /\ (2 * Second <> 0 /\ 2 * Second <> 0 /\ 3 <> 0 /\ 5 <> 0 /\ 10 <> 0)
  /\ 5 <= 10
  /\ OnStateChange (opt exampleBreaker) = Some onChange
  /\ shouldTrip (opt exampleBreaker) = Some (defaultTrip 3)
  /\ New (opt exampleBreaker) 0 = inr exampleBreaker.
Proof.
  exact (New_builds_valid_breaker Log exampleOption 0 exampleBreaker eq_refl).
Defined.

Lemma window_rollover_is_silent_witness :
  postStartHook (1 + 2 * Second)
    (set_counts (mkCounts 2 0 2) exampleBreaker) []
  = Done (1 + 4 * Second, None)
      (mkCircuitBreaker (opt exampleBreaker) Closed (1 + 4 * Second)
         (mkCounts 1 0 0)) [].
Proof.
  exact (proj1 (window_rollover_is_silent Log (1 + 2 * Second)
                  (set_counts (mkCounts 2 0 2) exampleBreaker) [] eq_refl)
           (defaultTrip 3) eq_refl eq_refl eq_refl).
Defined.

Lemma successes_never_trip_witness :
  exists cb',
    DoAll (map succeeding fiveSuccesses) exampleBreaker []
    = Done (map success_of fiveSuccesses) cb' []
    /\ state cb' = Closed /\ Failure (counts cb') = 0
    /\ opt cb' = opt exampleBreaker.
Proof.
  apply (successes_never_trip Log fiveSuccesses exampleBreaker [] 3);
    reflexivity.
Defined.


Lemma recovery_closes_after_success_threshold_witness :
  DoAll
    (map succeeding
       ((5 + 2 * Second, Int 1) :: fourProbes ++ [(9 + 9 * Second, Int 6)]))
    openBreaker []
  = Done
      (map success_of
         ((5 + 2 * Second, Int 1) :: fourProbes ++ [(9 + 9 * Second, Int 6)]))
      (mkCircuitBreaker (opt openBreaker) Closed (9 + 11 * Second)
         (mkCounts 1 1 0))
      [mkEvent (5 + 2 * Second) Open HalfOpen ReasonOpenStateExpired;
       mkEvent (9 + 9 * Second) HalfOpen Closed ReasonReachThreshold].
Proof.
  apply (recovery_closes_after_success_threshold Log
           (5 + 2 * Second, Int 1) fourProbes (9 + 9 * Second, Int 6)
           openBreaker [] onChange).
  - reflexivity.
  - reflexivity.
  - reflexivity.
  - reflexivity.
  - vm_compute. discriminate.
  - vm_compute. discriminate.
  - repeat constructor; vm_compute; discriminate.
Defined.

Lemma step_moves_and_tells_witness :
  opt (moved 4 Open exampleBreaker) = opt exampleBreaker
  /\ ((Open = Closed /\ [mkEvent 4 Closed Open ReasonReachThreshold] = []
       /\ Admit 4 <> ManualReset 4)
      \/ (admission_transition Closed Open
          /\ [mkEvent 4 Closed Open ReasonReachThreshold]
             = [mkEvent 4 Closed Open ReasonReachThreshold])).
Proof.
  exact (step_moves_and_tells Log (Admit 4)
           (mkSystem (set_counts (mkCounts 3 0 3) exampleBreaker) [] [])
           (mkSystem (moved 4 Open exampleBreaker)
              [mkEvent 4 Closed Open ReasonReachThreshold] [])
           eq_refl).
Defined.

Lemma counts_stay_in_range_witness : within 18 (mkCounts 11 0 0).
Proof.
  apply (counts_stay_in_range Log elevenProbes
           (mkSystem exampleBreaker [] [])
           (mkSystem (halfOpenBreaker (mkCounts 11 0 0))
              [mkEvent 4 Closed Open ReasonReachThreshold;
               mkEvent (5 + 2 * Second) Open HalfOpen ReasonOpenStateExpired]
              (repeat (5 + 4 * Second) 11)) 0).
  - vm_compute. reflexivity.
  - vm_compute. repeat split; discriminate.
  - vm_compute. discriminate.
Defined.

Lemma half_open_requests_bounded_witness : 11 <= 10 + 1.
Proof.
  apply (half_open_requests_bounded Log elevenProbes
           (mkSystem exampleBreaker [] [])
           (mkSystem (halfOpenBreaker (mkCounts 11 0 0))
              [mkEvent 4 Closed Open ReasonReachThreshold;
               mkEvent (5 + 2 * Second) Open HalfOpen ReasonOpenStateExpired]
              (repeat (5 + 4 * Second) 11)) 0).
  - vm_compute. reflexivity.
  - vm_compute. repeat split; discriminate.
  - vm_compute. discriminate.
  - vm_compute. discriminate.
  - discriminate.
  - reflexivity.
Defined.

Lemma open_holds_under_interleaving_witness :
  Open = Open
  /\ 4 + 2 * Second = 4 + 2 * Second
  /\ opt openBreaker = opt openBreaker
  /\ 0 = 0
  /\ @nil Event = []
  /\ incl [9] [7; 9].
Proof.
  apply (open_holds_under_interleaving Log
           [Admit 5; Complete 7 true 6; Admit (4 + 2 * Second)]
           (mkSystem openBreaker [] [7; 9])
           (mkSystem openBreaker [] [9])).
  - reflexivity.
  - repeat constructor; vm_compute; discriminate.
  - vm_compute. reflexivity.
Defined.

Lemma admission_token_is_current_witness :
  4 + 2 * Second = generation (moved 4 Open exampleBreaker)
  /\ (0 <= 2 * Second -> 0 <= 2 * Second -> 4 <= 4 + 2 * Second).
Proof.
  exact (admission_token_is_current Log 4
           (set_counts (mkCounts 3 0 3) exampleBreaker)
           (moved 4 Open exampleBreaker) []
           [mkEvent 4 Closed Open ReasonReachThreshold]
           (4 + 2 * Second) (Some ErrIsOpen) eq_refl).
Defined.

Lemma log_is_a_history_witness :
  history Closed
    [mkEvent 4 Closed Open ReasonReachThreshold;
     mkEvent (5 + 2 * Second) Open HalfOpen ReasonOpenStateExpired]
    HalfOpen.
Proof.
  apply (log_is_a_history tenProbes
           (mkSystem exampleBreaker [] [])
           (mkSystem (halfOpenBreaker (mkCounts 10 0 0))
              [mkEvent 4 Closed Open ReasonReachThreshold;
               mkEvent (5 + 2 * Second) Open HalfOpen ReasonOpenStateExpired]
              (repeat (5 + 4 * Second) 10)) Closed).
  - reflexivity.
  - reflexivity.
  - vm_compute. reflexivity.
Defined.

Lemma Counts_String_injective_witness :
  mkCounts 3 0 3 = mkCounts (1 + 2) 0 (6 - 3).
Proof.
  apply (Counts_String_injective (mkCounts 3 0 3) (mkCounts (1 + 2) 0 (6 - 3))).
  reflexivity.
Defined.

Lemma main_transcript_witness :
  exists bk,
    Example.init itoa 0 = inr bk
    /\ Example.main exampleClock bk []
       = Done tt
           (Example.breakerAt itoa Closed (20000 + 8 * Second) 1 1 0)
           (Example.transcript itoa exampleClock).
Proof.
  apply (main_transcript itoa exampleClock 0).
  repeat split; vm_compute; first [reflexivity | discriminate].
Defined.
